(** * voice_switch.py: voice-command switch for one Kasa smart plug

    A shallow embedding of [src/voice_switch.py].  Text is a [string] whose
    characters are code points U+0000..U+00FF, which covers the ASCII
    transcriptions of the English acoustic model.  Calls into the external
    libraries (vosk, sounddevice, python-kasa) are answered by an
    environment and recorded in a trace of events; Python exceptions are
    carried by an explicit outcome type. *)

From Stdlib Require Import Strings.String Strings.Ascii Lists.List Bool.Bool.
From Stdlib Require Import Arith.PeanoNat ZArith.ZArith micromega.Lia.
Import ListNotations.

Local Open Scope string_scope.
Local Open Scope list_scope.

(** ** Python string operations used by the program *)

Module PyStr.

(** [kw in text] on two [str] values: [kw] occurs as a contiguous run of
    [text]. *)
Fixpoint str_in (kw text : string) : bool :=
  if String.prefix kw text then true
  else match text with
       | EmptyString => false
       | String _ rest => str_in kw rest
       end.

(** [str.isspace] on one code point below U+0100: TAB..CR, FS..US, SPACE,
    NEL and NBSP. *)
Definition isspace (c : ascii) : bool :=
  let n := nat_of_ascii c in
  (((9 <=? n) && (n <=? 13)) || ((28 <=? n) && (n <=? 32))
   || (n =? 133) || (n =? 160))%nat.

(** [str.lower] on one code point below U+0100: A..Z and the upper-case
    Latin-1 letters (U+00C0..U+00DE except the multiplication sign U+00D7)
    move up by 32. *)
Definition lower_char (c : ascii) : ascii :=
  let n := nat_of_ascii c in
  if (((65 <=? n) && (n <=? 90))
      || ((192 <=? n) && (n <=? 222) && negb (n =? 215)))%nat
  then ascii_of_nat (n + 32) else c.

Fixpoint lower (s : string) : string :=
  match s with
  | EmptyString => EmptyString
  | String c rest => String (lower_char c) (lower rest)
  end.

Fixpoint lstrip (s : string) : string :=
  match s with
  | EmptyString => EmptyString
  | String c rest => if isspace c then lstrip rest else s
  end.

(** Drops trailing white space: a character is kept when it is not white
    space or when something is kept after it. *)
Fixpoint rstrip (s : string) : string :=
  match s with
  | EmptyString => EmptyString
  | String c rest =>
      match rstrip rest with
      | EmptyString => if isspace c then EmptyString else String c EmptyString
      | kept => String c kept
      end
  end.

(** [str.strip()] without argument. *)
Definition strip (s : string) : string := rstrip (lstrip s).

(** Truth value of a [str]: false exactly for the empty string. *)
Definition truthy (s : string) : bool :=
  match s with EmptyString => false | String _ _ => true end.

Fixpoint all_space (s : string) : bool :=
  match s with
  | EmptyString => true
  | String c rest => isspace c && all_space rest
  end.

End PyStr.

(** ** Configuration constants *)

(** ["model\vosk-model-small-en-us-0.15"]: in a Python literal [\v] is the
    vertical tab U+000B. *)
Definition MODEL_PATH : string :=
  "model" ++ String (ascii_of_nat 11) "osk-model-small-en-us-0.15".
Definition SAMPLE_RATE : Z := 16000.
Definition CHANNELS : Z := 1.
Definition PLUG_IP : string := "192.168.0.1".
Definition DEVICE_NAME : string := "livingroom".

Definition CMD_ON : list string := ["turn on"; "switch on"; "on"].
Definition CMD_OFF : list string := ["turn off"; "switch off"; "off"].
Definition CMD_TOGGLE : list string := ["toggle"; "switch"].

(** [contains_keyword(text, keywords)]: the loop returns [True] at the first
    keyword found in [text], [False] when the tuple is exhausted. *)
Fixpoint contains_keyword (text : string) (keywords : list string) : bool :=
  match keywords with
  | [] => false
  | kw :: rest => if PyStr.str_in kw text then true
                  else contains_keyword text rest
  end.

(** ** Exceptions, outcomes and events *)

(** The program tells Python exceptions apart only by class: the device
    operations handle [Exception], [main] handles [KeyboardInterrupt];
    everything else derives from [BaseException] alone ([SystemExit],
    [GeneratorExit], [asyncio.CancelledError]). *)
Inductive exn_class : Type :=
| ExceptionCls
| KeyboardInterruptCls
| OtherBaseCls.

(** An exception object: its class and [str(e)], the text [print] shows. *)
Record pyexn : Type := PyExn { exn_cls : exn_class; exn_str : string }.

Definition is_Exception (e : pyexn) : bool :=
  match exn_cls e with ExceptionCls => true | _ => false end.

Definition is_KeyboardInterrupt (e : pyexn) : bool :=
  match exn_cls e with KeyboardInterruptCls => true | _ => false end.

Inductive outcome (A : Type) : Type :=
| Normal (a : A)
| Raised (e : pyexn).
Arguments Normal {A} a.
Arguments Raised {A} e.

(** The three commands of the keyword table. *)
Inductive command : Type := ON | OFF | TOGGLE.

Definition chunk : Type := list Byte.byte.

(** A [vosk.Model] object: its identity and its truth value under [not]. *)
Record model_obj : Type := ModelObj { model_id : nat; model_truthy : bool }.

(** A parsed JSON result: string keys, string values. *)
Definition dict : Type := list (string * string).

(** [j.get(key, default)]. *)
Fixpoint dict_get (j : dict) (key default : string) : string :=
  match j with
  | [] => default
  | (k, v) :: rest => if String.eqb k key then v else dict_get rest key default
  end.

(** What the program does that is visible outside it, in program order.
    Recognizers and plugs are named by the object identity the environment
    handed out. *)
Inductive event : Type :=
| EvModel (path : string)                      (* Model(path) *)
| EvKaldiRecognizer (model : nat) (rate : Z)   (* KaldiRecognizer(model, r) *)
| EvSetWords (rec : nat) (b : bool)            (* rec.SetWords(b) *)
| EvStreamEnter (samplerate blocksize channels : Z)
                                    (* with sd.RawInputStream(...): *)
| EvStreamExit                                 (* leaving the with block *)
| EvFlush                                      (* sys.stdout.flush() *)
| EvQueueGet (data : chunk)                    (* data = q.get() *)
| EvAcceptWaveform (rec : nat) (data : chunk)  (* rec.AcceptWaveform(data) *)
| EvResult (rec : nat)                         (* json.loads(rec.Result()) *)
| EvPrint (line : string)                      (* print(...) on stdout *)
| EvAwait (c : command) (ip : string)          (* await kasa_<c>(ip) *)
| EvSmartPlug (ip : string)                    (* SmartPlug(ip) *)
| EvUpdate (plug : nat)                        (* await plug.update() *)
| EvTurnOn (plug : nat)                        (* await plug.turn_on() *)
| EvTurnOff (plug : nat)                       (* await plug.turn_off() *)
| EvLoopClose.                                 (* loop.close() *)

(** How the program stands once the chunks queued so far are consumed: the
    function has returned, or it is blocked in [q.get()]. *)
Inductive loop_status : Type := Returned | AwaitingAudio.

(** ** The environment: vosk, sounddevice and python-kasa *)

(** Every external call takes the state of the world and answers with a
    value or an exception.  [plug_update] answers with the relay state it
    fetched, which is what [plug.is_on] reads afterwards. *)
Record Env (World : Type) : Type := {
  vosk_Model : string -> World -> World * outcome model_obj;
  vosk_KaldiRecognizer : model_obj -> Z -> World -> World * outcome nat;
  rec_SetWords : nat -> bool -> World -> World * outcome unit;
  rec_AcceptWaveform : nat -> chunk -> World -> World * outcome bool;
  rec_Result : nat -> World -> World * outcome dict;
  sd_RawInputStream : World -> World * outcome unit;
  kasa_SmartPlug : string -> World -> World * outcome nat;
  plug_update : nat -> World -> World * outcome bool;
  plug_turn_on : nat -> World -> World * outcome unit;
  plug_turn_off : nat -> World -> World * outcome unit
}.
Arguments vosk_Model {World} _ _ _.
Arguments vosk_KaldiRecognizer {World} _ _ _ _.
Arguments rec_SetWords {World} _ _ _ _.
Arguments rec_AcceptWaveform {World} _ _ _ _.
Arguments rec_Result {World} _ _ _.
Arguments sd_RawInputStream {World} _ _.
Arguments kasa_SmartPlug {World} _ _ _.
Arguments plug_update {World} _ _ _.
Arguments plug_turn_on {World} _ _ _.
Arguments plug_turn_off {World} _ _ _.

(** ** A monad for world state, trace and exceptions *)

Definition M (World A : Type) : Type :=
  World -> World * list event * outcome A.

Definition ret {World A} (a : A) : M World A :=
  fun w => (w, [], Normal a).

Definition bind {World A B} (m : M World A) (k : A -> M World B) : M World B :=
  fun w =>
    match m w with
    | (w1, tr1, Normal a) =>
        match k a w1 with
        | (w2, tr2, o) => (w2, tr1 ++ tr2, o)
        end
    | (w1, tr1, Raised e) => (w1, tr1, Raised e)
    end.

Notation "x <- m ;; k" := (bind m (fun x => k))
  (at level 61, m at next level, right associativity).
Notation "m ;;; k" := (bind m (fun _ => k))
  (at level 61, right associativity).

Definition emit {World} (ev : event) : M World unit :=
  fun w => (w, [ev], Normal tt).

Definition print {World} (line : string) : M World unit :=
  emit (EvPrint line).

(** An external call: the event, then the environment's answer. *)
Definition call {World A} (ev : event) (f : World -> World * outcome A)
  : M World A :=
  fun w => match f w with (w1, o) => (w1, [ev], o) end.

(** [try: body / except Exception as e: handler(e)]: an exception of class
    [Exception] runs the handler, any other one goes on to the caller. *)
Definition try_except_Exception {World}
    (body : M World unit) (handler : pyexn -> M World unit) : M World unit :=
  fun w =>
    match body w with
    | (w1, tr1, Normal tt) => (w1, tr1, Normal tt)
    | (w1, tr1, Raised e) =>
        if is_Exception e then
          match handler e w1 with
          | (w2, tr2, o) => (w2, tr1 ++ tr2, o)
          end
        else (w1, tr1, Raised e)
    end.

(** Leaving a [with] block or a [try] with a [finally] clause: [cleanup]
    runs on every way out, by return or by exception; a body still blocked
    in [q.get()] has not left. *)
Definition with_cleanup {World} (cleanup : event)
    (body : M World loop_status) : M World loop_status :=
  fun w =>
    match body w with
    | (w1, tr1, Normal AwaitingAudio) => (w1, tr1, Normal AwaitingAudio)
    | (w1, tr1, Normal Returned) => (w1, tr1 ++ [cleanup], Normal Returned)
    | (w1, tr1, Raised e) => (w1, tr1 ++ [cleanup], Raised e)
    end.

Definition world_of {World A} (r : World * list event * outcome A) : World :=
  fst (fst r).
Definition trace_of {World A} (r : World * list event * outcome A)
  : list event := snd (fst r).
Definition outcome_of {World A} (r : World * list event * outcome A)
  : outcome A := snd r.

(** ** The program *)

Section Program.

Context {World : Type} (env : Env World).

(** The [try] suite of [kasa_turn_on]. *)
Definition turn_on_suite (ip : string) : M World unit :=
  plug <- call (EvSmartPlug ip) (kasa_SmartPlug env ip) ;;
  _ <- call (EvUpdate plug) (plug_update env plug) ;;
  call (EvTurnOn plug) (plug_turn_on env plug) ;;;
  print ("[KASA] Turned ON " ++ ip).

(** [kasa_turn_on(ip)] *)
Definition kasa_turn_on (ip : string) : M World unit :=
  try_except_Exception (turn_on_suite ip)
    (fun e => print ("[KASA] Error turning on: " ++ exn_str e)).

(** The [try] suite of [kasa_turn_off]. *)
Definition turn_off_suite (ip : string) : M World unit :=
  plug <- call (EvSmartPlug ip) (kasa_SmartPlug env ip) ;;
  _ <- call (EvUpdate plug) (plug_update env plug) ;;
  call (EvTurnOff plug) (plug_turn_off env plug) ;;;
  print ("[KASA] Turned OFF " ++ ip).

(** [kasa_turn_off(ip)] *)
Definition kasa_turn_off (ip : string) : M World unit :=
  try_except_Exception (turn_off_suite ip)
    (fun e => print ("[KASA] Error turning off: " ++ exn_str e)).

(** The [try] suite of [kasa_toggle]. *)
Definition toggle_suite (ip : string) : M World unit :=
  plug <- call (EvSmartPlug ip) (kasa_SmartPlug env ip) ;;
  is_on <- call (EvUpdate plug) (plug_update env plug) ;;
  if is_on : bool then
    call (EvTurnOff plug) (plug_turn_off env plug) ;;;
    print ("[KASA] Toggled OFF " ++ ip)
  else
    call (EvTurnOn plug) (plug_turn_on env plug) ;;;
    print ("[KASA] Toggled ON " ++ ip).

(** [kasa_toggle(ip)] *)
Definition kasa_toggle (ip : string) : M World unit :=
  try_except_Exception (toggle_suite ip)
    (fun e => print ("[KASA] Error toggling: " ++ exn_str e)).

(** The three device operations, by command. *)
Definition kasa_suite (c : command) : string -> M World unit :=
  match c with
  | ON => turn_on_suite
  | OFF => turn_off_suite
  | TOGGLE => toggle_suite
  end.

Definition kasa_op (c : command) : string -> M World unit :=
  match c with
  | ON => kasa_turn_on
  | OFF => kasa_turn_off
  | TOGGLE => kasa_toggle
  end.

(** [await kasa_<c>(ip)] as it stands in [voice_loop]. *)
Definition device_op (c : command) (ip : string) : M World unit :=
  emit (EvAwait c ip) ;;; kasa_op c ip.

(** The command parsing of [voice_loop]: the [if]/[elif]/[else] chain on the
    normalised, non-empty [text]. *)
Definition dispatch (text : string) : M World unit :=
  if contains_keyword text CMD_ON then device_op ON PLUG_IP
  else if contains_keyword text CMD_OFF then device_op OFF PLUG_IP
  else if contains_keyword text CMD_TOGGLE then device_op TOGGLE PLUG_IP
  else print ("No known command in: " ++ text).

(** The [text] of a parsed result: [j.get("text", "").lower().strip()]. *)
Definition normalized_text (j : dict) : string :=
  PyStr.strip (PyStr.lower (dict_get j "text" "")).

(** What [voice_loop] does with one finalized result [j]: [continue] on an
    empty text, otherwise the [Recognized:] line and the command parsing. *)
Definition process_result (j : dict) : M World unit :=
  let text := normalized_text j in
  if negb (PyStr.truthy text) then ret tt
  else print ("Recognized: " ++ text) ;;; dispatch text.

(** The [while True:] loop over the chunks that reach the queue, in order.
    With the queue drained the loop is blocked in [q.get()]. *)
Fixpoint recognizer_loop (rec : nat) (chunks : list chunk)
  : M World loop_status :=
  match chunks with
  | [] => ret AwaitingAudio
  | data :: rest =>
      emit (EvQueueGet data) ;;;
      final <- call (EvAcceptWaveform rec data)
                    (rec_AcceptWaveform env rec data) ;;
      if final : bool then
        j <- call (EvResult rec) (rec_Result env rec) ;;
        process_result j ;;;
        recognizer_loop rec rest
      else recognizer_loop rec rest
  end.

(** [voice_loop(model_path)], run against the chunks that reach the queue. *)
Definition voice_loop (model_path : string) (chunks : list chunk)
  : M World loop_status :=
  probe <- call (EvModel model_path) (vosk_Model env model_path) ;;
  if negb (model_truthy probe) then
    print "Model not found or cannot be loaded. Check MODEL_PATH." ;;;
    ret Returned
  else
    model <- call (EvModel model_path) (vosk_Model env model_path) ;;
    rec <- call (EvKaldiRecognizer (model_id model) SAMPLE_RATE)
                (vosk_KaldiRecognizer env model SAMPLE_RATE) ;;
    call (EvSetWords rec false) (rec_SetWords env rec false) ;;;
    call (EvStreamEnter SAMPLE_RATE 8000 CHANNELS) (sd_RawInputStream env) ;;;
    with_cleanup EvStreamExit
      (print
         "Listening... Say: 'turn on the light' or 'turn off the light' etc." ;;;
       emit EvFlush ;;;
       recognizer_loop rec chunks).

(** [try: ... except KeyboardInterrupt: ...]: only a [KeyboardInterrupt]
    runs the handler. *)
Definition try_except_KeyboardInterrupt
    (body : M World loop_status) (handler : M World unit)
  : M World loop_status :=
  fun w =>
    match body w with
    | (w1, tr1, Raised e) =>
        if is_KeyboardInterrupt e then
          match handler w1 with
          | (w2, tr2, Normal tt) => (w2, tr1 ++ tr2, Normal Returned)
          | (w2, tr2, Raised e2) => (w2, tr1 ++ tr2, Raised e2)
          end
        else (w1, tr1, Raised e)
    | r => r
    end.

(** [main()] *)
Definition main (chunks : list chunk) : M World loop_status :=
  with_cleanup EvLoopClose
    (try_except_KeyboardInterrupt
       (voice_loop MODEL_PATH chunks)
       (print (String (ascii_of_nat 10) "Stopping..."))).

End Program.

(** ** The command matcher as the specification words it *)

(** [kw] occurs in [text] as a contiguous run of characters. *)
Definition is_substring (kw text : string) : Prop :=
  exists before after, text = (before ++ kw ++ after)%string.

(** The keyword table in its priority order. *)
Definition CommandSpec : list (command * list string) :=
  [(ON, CMD_ON); (OFF, CMD_OFF); (TOGGLE, CMD_TOGGLE)].

(** One of the keywords of [group] is a substring of [text]. *)
Definition group_occurs (group : list string) (text : string) : Prop :=
  exists kw, In kw group /\ is_substring kw text.

(** [m] is the answer of a matcher that goes through [table] in order and
    returns the command of the first group one of whose keywords is a
    substring of the text, and no command when there is no such group. *)
Fixpoint first_group (table : list (command * list string)) (text : string)
    (m : option command) : Prop :=
  match table with
  | [] => m = None
  | (c, group) :: rest =>
      (group_occurs group text /\ m = Some c)
      \/ (~ group_occurs group text /\ first_group rest text m)
  end.

(** The matcher of the specification: priority order ON, OFF, TOGGLE. *)
Definition matcher_spec (text : string) (m : option command) : Prop :=
  first_group CommandSpec text m.

(** The matcher in a form that runs, over the same table with the test
    [PyStr.str_in]; it is shown below to give the answer of
    [matcher_spec]. *)
Definition command_matcher (text : string) : option command :=
  option_map fst
    (find (fun group => existsb (fun kw => PyStr.str_in kw text) (snd group))
          CommandSpec).

(** What the main loop does with the matcher's answer. *)
Definition run_match {World} (env : Env World) (text : string)
    (m : option command) : M World unit :=
  match m with
  | Some c => device_op env c PLUG_IP
  | None => print ("No known command in: " ++ text)
  end.

Definition all_keywords : list string := CMD_ON ++ CMD_OFF ++ CMD_TOGGLE.

(** The white-space separated words of a text, as [str.split()] gives them:
    [cur] collects the word being read. *)
Fixpoint split_from (cur : string) (s : string) : list string :=
  match s with
  | EmptyString => if PyStr.truthy cur then [cur] else []
  | String c rest =>
      if PyStr.isspace c
      then (if PyStr.truthy cur then [cur] else []) ++ split_from "" rest
      else split_from (cur ++ String c "")%string rest
  end.

Definition split (s : string) : list string := split_from "" s.

(** ** Reading traces *)

Definition is_await (ev : event) : bool :=
  match ev with EvAwait _ _ => true | _ => false end.

Definition is_session (ev : event) : bool :=
  match ev with EvSmartPlug _ => true | _ => false end.

Definition is_state_change (ev : event) : bool :=
  match ev with EvTurnOn _ | EvTurnOff _ => true | _ => false end.

Definition is_model_load (ev : event) : bool :=
  match ev with EvModel _ => true | _ => false end.

Definition is_queue_get (ev : event) : bool :=
  match ev with EvQueueGet _ => true | _ => false end.

Definition count (p : event -> bool) (tr : list event) : nat :=
  length (filter p tr).

(** The state-changing call of each operation on plug [p], given the relay
    state that [update()] fetched. *)
Definition own_command (c : command) (is_on : bool) (p : nat) : event :=
  match c with
  | ON => EvTurnOn p
  | OFF => EvTurnOff p
  | TOGGLE => if is_on then EvTurnOff p else EvTurnOn p
  end.

(** Some call into python-kasa answers by raising [e]. *)
Definition raised_by_device {World} (env : Env World) (e : pyexn) : Prop :=
  (exists ip w, snd (kasa_SmartPlug env ip w) = Raised e)
  \/ (exists p w, snd (plug_update env p w) = Raised e)
  \/ (exists p w, snd (plug_turn_on env p w) = Raised e)
  \/ (exists p w, snd (plug_turn_off env p w) = Raised e).

(** The line each operation prints for a caught exception. *)
Definition error_line (c : command) (e : pyexn) : string :=
  (match c with
  | ON => "[KASA] Error turning on: "
  | OFF => "[KASA] Error turning off: "
  | TOGGLE => "[KASA] Error toggling: "
  end ++ exn_str e)%string.

(** Every failure of a python-kasa call is an exception of class
    [Exception]. *)
Definition device_faults_are_Exceptions {World} (env : Env World) : Prop :=
  forall (w : World) (e : pyexn),
    (forall ip, snd (kasa_SmartPlug env ip w) = Raised e ->
                is_Exception e = true)
    /\ (forall p, snd (plug_update env p w) = Raised e ->
                  is_Exception e = true)
    /\ (forall p, snd (plug_turn_on env p w) = Raised e ->
                  is_Exception e = true)
    /\ (forall p, snd (plug_turn_off env p w) = Raised e ->
                  is_Exception e = true).

(** The first [Model(path)] did not give a usable model: it raised, or the
    object is false under [not]. *)
Definition load_failed (o : outcome model_obj) : Prop :=
  match o with
  | Raised _ => True
  | Normal m => model_truthy m = false
  end.

(** ** A mocked environment *)

Module Mock.

Inductive model_state : Type :=
| Loadable
| Falsy
| Unloadable (e : pyexn).

Record world : Type := World {
  relay : bool;                    (* the plug's relay *)
  fresh : nat;                     (* next object identity *)
  model : model_state;
  transcripts : list dict          (* results the recognizer will finalize *)
}.

Definition bump (w : world) : world :=
  World (relay w) (S (fresh w)) (model w) (transcripts w).

Definition set_relay (b : bool) (w : world) : world :=
  World b (fresh w) (model w) (transcripts w).

Definition pop (w : world) : world :=
  World (relay w) (fresh w) (model w) (tl (transcripts w)).

(** [fault], when set, is what every [update()] raises. *)
Definition env (fault : option pyexn) : Env world := {|
  vosk_Model := fun _ w =>
    match model w with
    | Loadable => (bump w, Normal (ModelObj (fresh w) true))
    | Falsy => (bump w, Normal (ModelObj (fresh w) false))
    | Unloadable e => (w, Raised e)
    end;
  vosk_KaldiRecognizer := fun _ _ w => (bump w, Normal (fresh w));
  rec_SetWords := fun _ _ w => (w, Normal tt);
  rec_AcceptWaveform := fun _ _ w =>
    (w, Normal (match transcripts w with [] => false | _ => true end));
  rec_Result := fun _ w => (pop w, Normal (hd [] (transcripts w)));
  sd_RawInputStream := fun w => (w, Normal tt);
  kasa_SmartPlug := fun _ w => (bump w, Normal (fresh w));
  plug_update := fun _ w =>
    match fault with
    | Some e => (w, Raised e)
    | None => (w, Normal (relay w))
    end;
  plug_turn_on := fun _ w => (set_relay true w, Normal tt);
  plug_turn_off := fun _ w => (set_relay false w, Normal tt)
|}.

Definition heard (texts : list string) : list dict :=
  map (fun t => [("text", t)]) texts.

(** Relay off, a loadable model, and a recognizer about to finalize the
    given texts. *)
Definition start (texts : list string) : world :=
  World false 0 Loadable (heard texts).

(** The plug answers. *)
Definition online : Env world := env None.

Definition network_down : pyexn :=
  PyExn ExceptionCls "Unable to connect to the device".

(** The plug cannot be reached. *)
Definition offline : Env world := env (Some network_down).

Definition interrupt : pyexn := PyExn KeyboardInterruptCls "".

(** Ctrl-C arrives while [update()] runs. *)
Definition interrupted : Env world := env (Some interrupt).

Definition silence : chunk := [].

End Mock.

(** ** The audio producer *)

(** A [sounddevice.CallbackFlags] value: its truth value and [str(status)]. *)
Record callback_flags : Type :=
  CallbackFlags { flags_truthy : bool; flags_str : string }.

(** What [audio_callback] acts on: the global queue [q], oldest block
    first, and the lines written to [sys.stderr]. *)
Record audio_state : Type :=
  AudioState { queue : list chunk; stderr : list string }.

(** [audio_callback(indata, frames, time, status)]; [indata] stands for
    [bytes(indata)], and [frames] and [time] are not used. *)
Definition audio_callback (indata : chunk) (frames : Z) (time : Z)
    (status : callback_flags) (s : audio_state) : audio_state :=
  let s1 :=
    if flags_truthy status
    then AudioState (queue s)
           (stderr s ++ [("Audio status: " ++ flags_str status)%string])
    else s in
  AudioState (queue s1 ++ [indata]) (stderr s1).

(** One capture block as the stream hands it to the callback. *)
Record block : Type := Block {
  blk_data : chunk;
  blk_frames : Z;
  blk_time : Z;
  blk_status : callback_flags
}.

(** The callback run on a series of blocks, in the order of capture. *)
Fixpoint deliver (blocks : list block) (s : audio_state) : audio_state :=
  match blocks with
  | [] => s
  | b :: rest =>
      deliver rest
        (audio_callback (blk_data b) (blk_frames b) (blk_time b)
           (blk_status b) s)
  end.

(** ** More ways to read traces *)

(** The chunks taken from the queue, in the order of the [q.get()] calls. *)
Fixpoint queue_gets (tr : list event) : list chunk :=
  match tr with
  | [] => []
  | EvQueueGet data :: rest => data :: queue_gets rest
  | _ :: rest => queue_gets rest
  end.

Definition is_print (ev : event) : bool :=
  match ev with EvPrint _ => true | _ => false end.

Definition is_turn_on (ev : event) : bool :=
  match ev with EvTurnOn _ => true | _ => false end.

Definition is_turn_off (ev : event) : bool :=
  match ev with EvTurnOff _ => true | _ => false end.

Definition is_loop_close (ev : event) : bool :=
  match ev with EvLoopClose => true | _ => false end.

(** What the body of the [while True:] loop can do with recognizer [rec]:
    take a chunk, ask [rec], print, and work on the plug at [PLUG_IP]. *)
Definition loop_event (rec : nat) (ev : event) : Prop :=
  match ev with
  | EvQueueGet _ | EvPrint _ | EvUpdate _ | EvTurnOn _ | EvTurnOff _ => True
  | EvAcceptWaveform r _ | EvResult r => r = rec
  | EvAwait _ ip | EvSmartPlug ip => ip = PLUG_IP
  | _ => False
  end.

(** No call on the recognizer ever raises. *)
Definition recognizer_never_raises {World} (env : Env World) : Prop :=
  forall (rec : nat) (w : World) (e : pyexn),
    (forall data, snd (rec_AcceptWaveform env rec data w) <> Raised e)
    /\ snd (rec_Result env rec w) <> Raised e.

(** The start-up events of [voice_loop] up to the first [q.get()]. *)
Definition startup_events (path : string) (model rec : nat) : list event :=
  [EvModel path; EvModel path; EvKaldiRecognizer model SAMPLE_RATE;
   EvSetWords rec false; EvStreamEnter SAMPLE_RATE 8000 CHANNELS;
   EvPrint
     "Listening... Say: 'turn on the light' or 'turn off the light' etc.";
   EvFlush].

(** A recognizer that never finalizes an utterance, on the mocked world. *)
Definition deaf : Env Mock.world := {|
  vosk_Model := vosk_Model Mock.online;
  vosk_KaldiRecognizer := vosk_KaldiRecognizer Mock.online;
  rec_SetWords := rec_SetWords Mock.online;
  rec_AcceptWaveform := fun _ _ w => (w, Normal false);
  rec_Result := rec_Result Mock.online;
  sd_RawInputStream := sd_RawInputStream Mock.online;
  kasa_SmartPlug := kasa_SmartPlug Mock.online;
  plug_update := plug_update Mock.online;
  plug_turn_on := plug_turn_on Mock.online;
  plug_turn_off := plug_turn_off Mock.online
|}.

(** * Properties *)

(** ** Substring test and normalisation *)

Section StringFacts.

Import PyStr.

Lemma prefix_spec (kw text : string) :
  String.prefix kw text = true <-> exists after, text = (kw ++ after)%string.
Proof.
  revert text; induction kw as [|a kw IH]; intros text.
  - split; [intros _; exists text; reflexivity|].
    destruct text; reflexivity.
  - destruct text as [|b text]; simpl.
    + split; [discriminate | intros [after H]; discriminate].
    + destruct (ascii_dec a b) as [->|Hne].
      * rewrite IH. split; intros [after H]; exists after.
        -- now rewrite H.
        -- now injection H.
      * split; [discriminate|].
        intros [after H]. injection H as H1 _. now subst.
Qed.

Lemma str_in_unfold (kw text : string) :
  str_in kw text
  = if String.prefix kw text then true
    else match text with
         | EmptyString => false
         | String _ rest => str_in kw rest
         end.
Proof. destruct text; reflexivity. Qed.

Lemma str_in_spec (kw text : string) :
  str_in kw text = true <-> is_substring kw text.
Proof.
  unfold is_substring. induction text as [|c text IH];
    rewrite str_in_unfold;
    match goal with |- context [String.prefix kw ?t] =>
      destruct (String.prefix kw t) eqn:Hp end.
  - split; [intros _ | reflexivity].
    apply prefix_spec in Hp. destruct Hp as [after H].
    exists "", after. exact H.
  - split; [discriminate|].
    intros (before & after & H).
    destruct before; simpl in H; [|discriminate].
    assert (String.prefix kw "" = true) by (apply prefix_spec; eauto).
    congruence.
  - split; [intros _ | reflexivity].
    apply prefix_spec in Hp. destruct Hp as [after H].
    exists "", after. exact H.
  - rewrite IH. split.
    + intros (before & after & H). exists (String c before), after.
      simpl. now rewrite H.
    + intros (before & after & H). destruct before as [|b before].
      * simpl in H.
        assert (String.prefix kw (String c text) = true)
          by (apply prefix_spec; eauto).
        congruence.
      * simpl in H. injection H as _ H. eauto.
Qed.

Lemma contains_keyword_spec (text : string) (keywords : list string) :
  contains_keyword text keywords = true
  <-> exists kw, In kw keywords /\ is_substring kw text.
Proof.
  induction keywords as [|k rest IH]; simpl.
  - split; [discriminate | intros (kw & [] & _)].
  - destruct (str_in k text) eqn:Hk.
    + split; [intros _ | reflexivity].
      exists k. split; [now left | now apply str_in_spec].
    + rewrite IH. split.
      * intros (kw & Hin & Hsub). exists kw. split; [now right | exact Hsub].
      * intros (kw & [<- | Hin] & Hsub).
        -- apply str_in_spec in Hsub. congruence.
        -- now exists kw.
Qed.

Lemma contains_keyword_existsb (text : string) (keywords : list string) :
  contains_keyword text keywords
  = existsb (fun kw => str_in kw text) keywords.
Proof.
  induction keywords as [|k rest IH]; simpl; [reflexivity|].
  rewrite IH. now destruct (str_in k text).
Qed.

Lemma isspace_lower_char (c : ascii) : isspace (lower_char c) = isspace c.
Proof.
  destruct c as [[] [] [] [] [] [] [] []]; reflexivity.
Qed.

Lemma all_space_lower (s : string) : all_space (lower s) = all_space s.
Proof.
  induction s as [|c s IH]; simpl; [reflexivity|].
  now rewrite isspace_lower_char, IH.
Qed.

Lemma rstrip_empty (s : string) : rstrip s = "" <-> all_space s = true.
Proof.
  induction s as [|c s IH]; simpl; [tauto|].
  destruct (rstrip s) eqn:Hr.
  - destruct (isspace c); simpl.
    + tauto.
    + split; discriminate.
  - split; [discriminate|].
    intros H. apply andb_true_iff in H. destruct H as [_ H].
    apply IH in H. discriminate.
Qed.

Lemma all_space_lstrip (s : string) : all_space (lstrip s) = all_space s.
Proof.
  induction s as [|c s IH]; simpl; [reflexivity|].
  destruct (isspace c) eqn:Hc; simpl; [exact IH | now rewrite Hc].
Qed.

Lemma strip_empty (s : string) : strip s = "" <-> all_space s = true.
Proof.
  unfold strip. now rewrite rstrip_empty, all_space_lstrip.
Qed.

Lemma append_empty_r (s : string) : (s ++ "")%string = s.
Proof.
  induction s as [|c s IH]; simpl; [reflexivity | now rewrite IH].
Qed.

Lemma truthy_false (s : string) : truthy s = false <-> s = "".
Proof.
  destruct s; simpl; split; congruence.
Qed.

End StringFacts.

(** ** The command matcher *)

Lemma command_matcher_chain (text : string) :
  command_matcher text
  = if contains_keyword text CMD_ON then Some ON
    else if contains_keyword text CMD_OFF then Some OFF
    else if contains_keyword text CMD_TOGGLE then Some TOGGLE
    else None.
Proof.
  rewrite !contains_keyword_existsb. unfold command_matcher, CommandSpec.
  cbn [find snd fst option_map].
  destruct (existsb _ CMD_ON); [reflexivity|].
  destruct (existsb _ CMD_OFF); [reflexivity|].
  destruct (existsb _ CMD_TOGGLE); reflexivity.
Qed.

Lemma group_occurs_iff (group : list string) (text : string) :
  group_occurs group text <-> contains_keyword text group = true.
Proof.
  unfold group_occurs. symmetry. apply contains_keyword_spec.
Qed.

Lemma matcher_spec_chain (text : string) (m : option command) :
  matcher_spec text m
  <-> m = if contains_keyword text CMD_ON then Some ON
          else if contains_keyword text CMD_OFF then Some OFF
          else if contains_keyword text CMD_TOGGLE then Some TOGGLE
          else None.
Proof.
  unfold matcher_spec, CommandSpec. cbn [first_group].
  rewrite !group_occurs_iff.
  destruct (contains_keyword text CMD_ON);
    [intuition congruence|].
  destruct (contains_keyword text CMD_OFF);
    [intuition congruence|].
  destruct (contains_keyword text CMD_TOGGLE); intuition congruence.
Qed.

(** C1: the command parsing of [voice_loop] checks the keyword groups in
    the order ON, OFF, TOGGLE and runs the command of the first group one of
    whose keywords is a substring of the text: it runs ON when an ON keyword
    occurs, OFF when none does and an OFF keyword occurs, TOGGLE when
    neither does and a TOGGLE keyword occurs, and no command when no keyword
    occurs.  A text with an ON keyword in it runs the ON command whatever
    else it contains. *)
Theorem dispatch_first_group_wins :
  forall (World : Type) (env : Env World) (text : string),
    (forall m, matcher_spec text m ->
               dispatch env text = run_match env text m)
    /\ (exists m, matcher_spec text m)
    /\ (group_occurs CMD_ON text ->
        dispatch env text = device_op env ON PLUG_IP)
    /\ (~ group_occurs CMD_ON text -> group_occurs CMD_OFF text ->
        dispatch env text = device_op env OFF PLUG_IP)
    /\ (~ group_occurs CMD_ON text -> ~ group_occurs CMD_OFF text ->
        group_occurs CMD_TOGGLE text ->
        dispatch env text = device_op env TOGGLE PLUG_IP)
    /\ (~ group_occurs CMD_ON text -> ~ group_occurs CMD_OFF text ->
        ~ group_occurs CMD_TOGGLE text ->
        dispatch env text = print ("No known command in: " ++ text))
    /\ matcher_spec text (command_matcher text)
    /\ dispatch env text = run_match env text (command_matcher text)
    /\ (forall kw, In kw CMD_ON -> is_substring kw text ->
        command_matcher text = Some ON
        /\ dispatch env text = device_op env ON PLUG_IP).
Proof.
  intros World env text.
  assert (Hchain : dispatch env text
                   = run_match env text (command_matcher text)).
  { rewrite command_matcher_chain. unfold dispatch.
    destruct (contains_keyword text CMD_ON); [reflexivity|].
    destruct (contains_keyword text CMD_OFF); [reflexivity|].
    destruct (contains_keyword text CMD_TOGGLE); reflexivity. }
  assert (Hspec : matcher_spec text (command_matcher text)).
  { apply matcher_spec_chain. apply command_matcher_chain. }
  assert (Hall : forall m, matcher_spec text m ->
                           dispatch env text = run_match env text m).
  { intros m Hm. apply matcher_spec_chain in Hm.
    rewrite <- command_matcher_chain in Hm. now subst m. }
  assert (Hcase : forall m, matcher_spec text m ->
                            dispatch env text = run_match env text m)
    by exact Hall.
  unfold matcher_spec, CommandSpec in Hcase. cbn [first_group] in Hcase.
  split; [exact Hall|]. split; [now exists (command_matcher text)|].
  split; [intros Hon; apply (Hcase (Some ON)); tauto|].
  split; [intros Hon Hoff; apply (Hcase (Some OFF)); tauto|].
  split; [intros Hon Hoff Htoggle; apply (Hcase (Some TOGGLE)); tauto|].
  split; [intros Hon Hoff Htoggle; apply (Hcase None); tauto|].
  split; [exact Hspec|]. split; [exact Hchain|].
  intros kw Hin Hsub.
  assert (Hon : contains_keyword text CMD_ON = true)
    by (apply contains_keyword_spec; eauto).
  assert (Hm : command_matcher text = Some ON)
    by (rewrite command_matcher_chain, Hon; reflexivity).
  split; [exact Hm|]. rewrite Hchain, Hm. reflexivity.
Qed.

Lemma switch_does_not_occur_in_on_off_groups :
  ~ group_occurs CMD_ON "switch" /\ ~ group_occurs CMD_OFF "switch".
Proof.
  split; intros (kw & Hin & Hsub); apply str_in_spec in Hsub;
    simpl in Hin;
    repeat (destruct Hin as [<- | Hin]; [discriminate Hsub|]); exact Hin.
Qed.

Lemma dispatch_first_group_wins_witness :
  (group_occurs CMD_ON "switch on then off"
   /\ group_occurs CMD_OFF "switch on then off"
   /\ group_occurs CMD_TOGGLE "switch on then off"
   /\ dispatch Mock.online "switch on then off"
      = device_op Mock.online ON PLUG_IP)
  /\ (group_occurs CMD_TOGGLE "switch"
      /\ dispatch Mock.online "switch" = device_op Mock.online TOGGLE PLUG_IP).
Proof.
  assert (Hon : group_occurs CMD_ON "switch on then off").
  { exists "switch on". split; [simpl; tauto|].
    exists "", " then off". reflexivity. }
  assert (Hoff : group_occurs CMD_OFF "switch on then off").
  { exists "off". split; [simpl; tauto|].
    exists "switch on then ", "". reflexivity. }
  assert (Htoggle : group_occurs CMD_TOGGLE "switch on then off").
  { exists "switch". split; [simpl; tauto|].
    exists "", " on then off". reflexivity. }
  assert (Hswitch : group_occurs CMD_TOGGLE "switch").
  { exists "switch". split; [simpl; tauto|]. exists "", "". reflexivity. }
  split.
  - split; [exact Hon|]. split; [exact Hoff|]. split; [exact Htoggle|].
    exact (proj1 (proj2 (proj2 (dispatch_first_group_wins
             Mock.world Mock.online "switch on then off"))) Hon).
  - split; [exact Hswitch|].
    exact (proj1 (proj2 (proj2 (proj2 (proj2 (dispatch_first_group_wins
             Mock.world Mock.online "switch")))))
           (proj1 switch_does_not_occur_in_on_off_groups)
           (proj2 switch_does_not_occur_in_on_off_groups) Hswitch).
Defined.

(** ** The device operations *)

Ltac unfold_ops :=
  unfold device_op, kasa_op, kasa_suite, kasa_turn_on, kasa_turn_off,
    kasa_toggle, turn_on_suite, turn_off_suite, toggle_suite,
    try_except_Exception, bind, call, print, emit, ret,
    trace_of, outcome_of, world_of.

(** Case analysis on the answers of the python-kasa calls met on the way. *)
Ltac case_calls env :=
  repeat (match goal with
          | |- context [kasa_SmartPlug env ?ip ?w] =>
              let o := fresh "o" in
              destruct (kasa_SmartPlug env ip w) as [? o] eqn:?; destruct o
          | |- context [plug_update env ?p ?w] =>
              let o := fresh "o" in
              destruct (plug_update env p w) as [? o] eqn:?;
              destruct o as [[]|]
          | |- context [plug_turn_on env ?p ?w] =>
              let o := fresh "o" in
              destruct (plug_turn_on env p w) as [? o] eqn:?;
              destruct o as [[]|]
          | |- context [plug_turn_off env ?p ?w] =>
              let o := fresh "o" in
              destruct (plug_turn_off env p w) as [? o] eqn:?;
              destruct o as [[]|]
          | |- context [is_Exception ?e] => destruct (is_Exception e) eqn:?
          end; cbn [fst snd app]).

Lemma app_cons_position {A : Type} (tr before after : list A) (x : A) :
  tr = before ++ x :: after ->
  before = firstn (length before) tr /\ nth_error tr (length before) = Some x.
Proof.
  intros ->. split.
  - rewrite firstn_app, Nat.sub_diag, firstn_all. simpl.
    now rewrite app_nil_r.
  - rewrite nth_error_app2, Nat.sub_diag by apply Nat.le_refl. reflexivity.
Qed.

(** C7: each of the three operations opens its own [SmartPlug(ip)] session
    first and calls [update()] on it as soon as it exists, whatever the
    operation; once [update()] has returned it issues its state-changing
    command on that plug, [turn_on()] for turn on, [turn_off()] for turn
    off, and for toggle the one opposite to the fetched state; a
    state-changing command is issued nowhere else. *)
Theorem every_operation_connects_then_updates :
  forall (World : Type) (env : Env World) (c : command) (ip : string)
         (w : World),
    let tr := trace_of (kasa_op env c ip w) in
    (exists rest, tr = EvSmartPlug ip :: rest)
    /\ (forall w1 p, kasa_SmartPlug env ip w = (w1, Normal p) ->
        exists rest, tr = EvSmartPlug ip :: EvUpdate p :: rest)
    /\ (forall w1 p w2 is_on,
        kasa_SmartPlug env ip w = (w1, Normal p) ->
        plug_update env p w1 = (w2, Normal is_on) ->
        count is_state_change tr = 1
        /\ exists rest,
             tr = EvSmartPlug ip :: EvUpdate p
                  :: own_command c is_on p :: rest)
    /\ (forall before ev after,
        tr = before ++ ev :: after -> is_state_change ev = true ->
        exists w1 p w2 is_on,
          kasa_SmartPlug env ip w = (w1, Normal p)
          /\ plug_update env p w1 = (w2, Normal is_on)
          /\ before = [EvSmartPlug ip; EvUpdate p]
          /\ ev = own_command c is_on p
          /\ (ev = EvTurnOn p \/ ev = EvTurnOff p)).
Proof.
  intros World env c ip w tr. subst tr.
  split; [|split; [|split]].
  - destruct c; unfold_ops; case_calls env; eauto.
  - intros w1 p Hnew.
    destruct c; unfold_ops; rewrite Hnew; cbn [fst snd app];
      case_calls env; eauto.
  - intros w1 p w2 is_on Hnew Hupd.
    destruct c; unfold_ops; rewrite Hnew; cbn [fst snd app];
      rewrite Hupd; cbn [fst snd app own_command];
      try destruct is_on; case_calls env;
      (split; [reflexivity | eexists; reflexivity]).
  - intros before ev after Htr Hev.
    apply app_cons_position in Htr. destruct Htr as [Hbefore Hnth].
    revert Hbefore Hnth.
    destruct c; unfold_ops; case_calls env;
      destruct (length before) as [|[|[|[|[|n]]]]]; cbn;
      intros Hbefore Hnth; try discriminate Hnth;
      injection Hnth as <-; try discriminate Hev;
      do 4 eexists; (split; [reflexivity|]); (split; [eassumption|]);
      (split; [exact Hbefore|]); (split; [reflexivity | auto]).
Qed.

Lemma every_operation_connects_then_updates_witness :
  kasa_SmartPlug Mock.online PLUG_IP (Mock.start [])
  = (Mock.bump (Mock.start []), Normal 0)
  /\ plug_update Mock.online 0 (Mock.bump (Mock.start []))
     = (Mock.bump (Mock.start []), Normal false)
  /\ count is_state_change
       (trace_of (kasa_op Mock.online OFF PLUG_IP (Mock.start []))) = 1
  /\ exists rest,
       trace_of (kasa_op Mock.online OFF PLUG_IP (Mock.start []))
       = EvSmartPlug PLUG_IP :: EvUpdate 0 :: EvTurnOff 0 :: rest.
Proof.
  split; [reflexivity|]. split; [reflexivity|].
  exact (proj1 (proj2 (proj2 (every_operation_connects_then_updates
           Mock.world Mock.online OFF PLUG_IP (Mock.start []))))
         (Mock.bump (Mock.start [])) 0 (Mock.bump (Mock.start [])) false
         eq_refl eq_refl).
Defined.

(** C4: [kasa_toggle] fetches the state with [update()] and branches on it:
    a relay found on gets [turn_off()] and the line [Toggled OFF], a relay
    found off gets [turn_on()] and the line [Toggled ON]; the line is
    printed once the command has returned. *)
Theorem toggle_branches_on_fetched_state :
  forall (World : Type) (env : Env World) (ip : string) (w w1 w2 : World)
         (p : nat) (is_on : bool),
    kasa_SmartPlug env ip w = (w1, Normal p) ->
    plug_update env p w1 = (w2, Normal is_on) ->
    let command := if is_on then EvTurnOff p else EvTurnOn p in
    let answer :=
      if is_on then plug_turn_off env p w2 else plug_turn_on env p w2 in
    let line :=
      (if is_on then "[KASA] Toggled OFF " ++ ip
       else "[KASA] Toggled ON " ++ ip)%string in
    firstn 3 (trace_of (kasa_toggle env ip w))
    = [EvSmartPlug ip; EvUpdate p; command]
    /\ count is_state_change (trace_of (kasa_toggle env ip w)) = 1
    /\ (snd answer = Normal tt ->
        kasa_toggle env ip w
        = (fst answer, [EvSmartPlug ip; EvUpdate p; command; EvPrint line],
           Normal tt)).
Proof.
  intros World env ip w w1 w2 p is_on Hnew Hupd command answer line.
  subst command answer line.
  unfold_ops. rewrite Hnew. cbn [fst snd app]. rewrite Hupd.
  destruct is_on; cbn [fst snd app]; case_calls env;
    (split; [reflexivity|]); (split; [reflexivity|]);
    intros H; try discriminate H; reflexivity.
Qed.

Lemma toggle_branches_on_fetched_state_witness :
  kasa_toggle Mock.online PLUG_IP (Mock.World true 7 Mock.Loadable [])
  = (Mock.World false 8 Mock.Loadable [],
     [EvSmartPlug PLUG_IP; EvUpdate 7; EvTurnOff 7;
      EvPrint "[KASA] Toggled OFF 192.168.0.1"], Normal tt)
  /\ kasa_toggle Mock.online PLUG_IP (Mock.World false 7 Mock.Loadable [])
     = (Mock.World true 8 Mock.Loadable [],
        [EvSmartPlug PLUG_IP; EvUpdate 7; EvTurnOn 7;
         EvPrint "[KASA] Toggled ON 192.168.0.1"], Normal tt).
Proof.
  split.
  - exact (proj2 (proj2 (toggle_branches_on_fetched_state
             Mock.world Mock.online PLUG_IP
             (Mock.World true 7 Mock.Loadable [])
             (Mock.World true 8 Mock.Loadable [])
             (Mock.World true 8 Mock.Loadable [])
             7 true eq_refl eq_refl)) eq_refl).
  - exact (proj2 (proj2 (toggle_branches_on_fetched_state
             Mock.world Mock.online PLUG_IP
             (Mock.World false 7 Mock.Loadable [])
             (Mock.World false 8 Mock.Loadable [])
             (Mock.World false 8 Mock.Loadable [])
             7 false eq_refl eq_refl)) eq_refl).
Defined.

Section DeviceFaults.

Context {World : Type} (env : Env World).
Hypothesis faults : device_faults_are_Exceptions env.

Lemma fault_SmartPlug ip w w1 e :
  kasa_SmartPlug env ip w = (w1, Raised e) -> is_Exception e = true.
Proof.
  intros H. apply (proj1 (faults w e) ip). now rewrite H.
Qed.

Lemma fault_update p w w1 e :
  plug_update env p w = (w1, Raised e) -> is_Exception e = true.
Proof.
  intros H. apply (proj1 (proj2 (faults w e)) p). now rewrite H.
Qed.

Lemma fault_turn_on p w w1 e :
  plug_turn_on env p w = (w1, Raised e) -> is_Exception e = true.
Proof.
  intros H. apply (proj1 (proj2 (proj2 (faults w e))) p). now rewrite H.
Qed.

Lemma fault_turn_off p w w1 e :
  plug_turn_off env p w = (w1, Raised e) -> is_Exception e = true.
Proof.
  intros H. apply (proj2 (proj2 (proj2 (faults w e))) p). now rewrite H.
Qed.

End DeviceFaults.

(** Turns the recorded failures of python-kasa calls into facts about the
    class of the exception. *)
Ltac classify_faults faults :=
  repeat match goal with
         | H : kasa_SmartPlug _ _ _ = (_, Raised _) |- _ =>
             apply (fault_SmartPlug _ faults) in H
         | H : plug_update _ _ _ = (_, Raised _) |- _ =>
             apply (fault_update _ faults) in H
         | H : plug_turn_on _ _ _ = (_, Raised _) |- _ =>
             apply (fault_turn_on _ faults) in H
         | H : plug_turn_off _ _ _ = (_, Raised _) |- _ =>
             apply (fault_turn_off _ faults) in H
         end.

Lemma kasa_op_returns {World : Type} (env : Env World) :
  device_faults_are_Exceptions env ->
  forall c ip w, outcome_of (kasa_op env c ip w) = Normal tt.
Proof.
  intros faults c ip w.
  destruct c; unfold_ops; case_calls env; classify_faults faults;
    solve [reflexivity | congruence].
Qed.

Lemma device_op_returns {World : Type} (env : Env World) :
  device_faults_are_Exceptions env ->
  forall c ip w, outcome_of (device_op env c ip w) = Normal tt.
Proof.
  intros faults c ip w.
  pose proof (kasa_op_returns env faults c ip w) as H.
  unfold device_op, bind, emit, outcome_of in *.
  destruct (kasa_op env c ip w) as [[w1 tr1] o]. exact H.
Qed.

Lemma process_result_returns {World : Type} (env : Env World) :
  device_faults_are_Exceptions env ->
  forall j w, outcome_of (process_result env j w) = Normal tt.
Proof.
  intros faults j w. unfold process_result.
  destruct (negb (PyStr.truthy (normalized_text j))); [reflexivity|].
  assert (Hd : outcome_of (dispatch env (normalized_text j) w) = Normal tt).
  { unfold dispatch.
    destruct (contains_keyword _ CMD_ON);
      [apply device_op_returns; assumption|].
    destruct (contains_keyword _ CMD_OFF);
      [apply device_op_returns; assumption|].
    destruct (contains_keyword _ CMD_TOGGLE);
      [apply device_op_returns; assumption|].
    reflexivity. }
  revert Hd. unfold bind, print, emit, outcome_of.
  destruct (dispatch env (normalized_text j) w) as [[w1 tr1] o]. auto.
Qed.

(** One turn of the loop on a chunk that finalizes an utterance. *)
Lemma recognizer_loop_final {World : Type} (env : Env World)
    rec data rest (w w1 w2 w3 : World) j tr3 :
  rec_AcceptWaveform env rec data w = (w1, Normal true) ->
  rec_Result env rec w1 = (w2, Normal j) ->
  process_result env j w2 = (w3, tr3, Normal tt) ->
  recognizer_loop env rec (data :: rest) w
  = match recognizer_loop env rec rest w3 with
    | (w4, tr4, o) =>
        (w4, [EvQueueGet data; EvAcceptWaveform rec data; EvResult rec]
             ++ tr3 ++ tr4, o)
    end.
Proof.
  intros Hacc Hres Hproc. cbn [recognizer_loop].
  unfold bind at 1. unfold emit at 1. unfold bind at 1. unfold call at 1.
  rewrite Hacc. unfold bind at 1. unfold call at 1. rewrite Hres.
  unfold bind at 1. rewrite Hproc.
  destruct (recognizer_loop env rec rest w3) as [[w4 tr4] o]. reflexivity.
Qed.

(** C2 as stated fails: [except Exception] lets a [KeyboardInterrupt] raised
    inside a device call through.  Each operation then ends by the
    exception, nothing is logged, and [voice_loop] stops at the first of two
    queued chunks. *)
Lemma interrupt_escapes_the_device_operations :
  kasa_turn_on Mock.interrupted PLUG_IP (Mock.start [])
  = (Mock.bump (Mock.start []),
     [EvSmartPlug PLUG_IP; EvUpdate 0], Raised Mock.interrupt)
  /\ kasa_turn_off Mock.interrupted PLUG_IP (Mock.start [])
     = (Mock.bump (Mock.start []),
        [EvSmartPlug PLUG_IP; EvUpdate 0], Raised Mock.interrupt)
  /\ kasa_toggle Mock.interrupted PLUG_IP (Mock.start [])
     = (Mock.bump (Mock.start []),
        [EvSmartPlug PLUG_IP; EvUpdate 0], Raised Mock.interrupt)
  /\ (let run := voice_loop Mock.interrupted MODEL_PATH
                   [Mock.silence; Mock.silence]
                   (Mock.start ["turn on"; "turn off"]) in
      outcome_of run = Raised Mock.interrupt
      /\ count is_queue_get (trace_of run) = 1).
Proof.
  repeat split; vm_compute; reflexivity.
Qed.

Lemma kasa_op_by_suite {World} (env : Env World) c ip w :
  kasa_op env c ip w
  = match kasa_suite env c ip w with
    | (w1, tr1, Normal _) => (w1, tr1, Normal tt)
    | (w1, tr1, Raised e) =>
        if is_Exception e
        then (w1, tr1 ++ [EvPrint (error_line c e)], Normal tt)
        else (w1, tr1, Raised e)
    end.
Proof.
  destruct c; cbn [kasa_op kasa_suite];
    unfold kasa_turn_on, kasa_turn_off, kasa_toggle, try_except_Exception,
      print, emit, error_line;
    match goal with |- context [?suite env ip w] =>
      destruct (suite env ip w) as [[w1 tr1] [[]|e]]
    end; try reflexivity; destruct (is_Exception e); reflexivity.
Qed.

(** Names the python-kasa call that raised. *)
Ltac blame_device env :=
  match goal with
  | H : kasa_SmartPlug env ?ip ?w = (_, Raised ?e)
    |- raised_by_device env ?e =>
      left; exists ip, w; now rewrite H
  | H : plug_update env ?p ?w = (_, Raised ?e)
    |- raised_by_device env ?e =>
      right; left; exists p, w; now rewrite H
  | H : plug_turn_on env ?p ?w = (_, Raised ?e)
    |- raised_by_device env ?e =>
      right; right; left; exists p, w; now rewrite H
  | H : plug_turn_off env ?p ?w = (_, Raised ?e)
    |- raised_by_device env ?e =>
      right; right; right; exists p, w; now rewrite H
  end.

Lemma kasa_suite_raises {World} (env : Env World) c ip w e :
  outcome_of (kasa_suite env c ip w) = Raised e -> raised_by_device env e.
Proof.
  destruct c; unfold_ops; case_calls env; intros H; try discriminate H;
    injection H as <-; blame_device env.
Qed.

Lemma kasa_op_raises {World} (env : Env World) c ip w e :
  outcome_of (kasa_op env c ip w) = Raised e ->
  is_Exception e = false /\ raised_by_device env e.
Proof.
  rewrite kasa_op_by_suite.
  pose proof (kasa_suite_raises env c ip w) as Hblame.
  unfold outcome_of in *.
  destruct (kasa_suite env c ip w) as [[w1 tr1] [[]|e1]];
    cbn [snd] in *; [discriminate|].
  destruct (is_Exception e1) eqn:Hcls; cbn [snd]; [discriminate|].
  intros H. injection H as <-. split; [exact Hcls | now apply Hblame].
Qed.

Lemma process_result_raises {World} (env : Env World) j w e :
  outcome_of (process_result env j w) = Raised e ->
  is_Exception e = false /\ raised_by_device env e.
Proof.
  unfold process_result.
  destruct (negb (PyStr.truthy (normalized_text j))); [discriminate|].
  assert (Hop : forall c w0, outcome_of (device_op env c PLUG_IP w0)
                             = Raised e ->
                             is_Exception e = false
                             /\ raised_by_device env e).
  { intros c w0. pose proof (kasa_op_raises env c PLUG_IP w0 e) as H.
    unfold device_op, bind, emit, outcome_of in *.
    destruct (kasa_op env c PLUG_IP w0) as [[w1 tr1] o]. exact H. }
  assert (Hd : outcome_of (dispatch env (normalized_text j) w) = Raised e ->
               is_Exception e = false /\ raised_by_device env e).
  { unfold dispatch.
    destruct (contains_keyword _ CMD_ON); [apply Hop|].
    destruct (contains_keyword _ CMD_OFF); [apply Hop|].
    destruct (contains_keyword _ CMD_TOGGLE); [apply Hop|].
    discriminate. }
  revert Hd. unfold bind, print, emit, outcome_of.
  destruct (dispatch env (normalized_text j) w) as [[w1 tr1] o]. auto.
Qed.

(** C2, amended: for every address, each of the three operations catches
    every exception of class [Exception] that a python-kasa call raises in
    its [try] suite, prints the error line with the detail and returns
    normally; an exception of another class is not caught, leaves the
    operation without a line and goes on to the caller, where it ends the
    loop.  So an operation is only ever left by an exception that is not of
    class [Exception], and after a result whose handling returned the loop
    goes on with the remaining chunks. *)
Theorem device_failures_are_caught_and_logged :
  forall (World : Type) (env : Env World) (c : command) (ip : string)
         (w : World),
    let suite := kasa_suite env c ip w in
    let run := kasa_op env c ip w in
    (forall e, outcome_of suite = Raised e -> raised_by_device env e)
    /\ (forall e, outcome_of suite = Raised e -> is_Exception e = true ->
        run = (world_of suite,
               trace_of suite ++ [EvPrint (error_line c e)], Normal tt))
    /\ (forall e, outcome_of suite = Raised e -> is_Exception e = false ->
        run = (world_of suite, trace_of suite, Raised e)
        /\ outcome_of (device_op env c ip w) = Raised e)
    /\ (outcome_of suite = Normal tt -> run = suite)
    /\ (forall e, outcome_of run = Raised e ->
        is_Exception e = false /\ raised_by_device env e)
    /\ (device_faults_are_Exceptions env -> outcome_of run = Normal tt)
    /\ (forall rec data rest w1 w2 j,
        rec_AcceptWaveform env rec data w = (w1, Normal true) ->
        rec_Result env rec w1 = (w2, Normal j) ->
        (device_faults_are_Exceptions env ->
         outcome_of (process_result env j w2) = Normal tt)
        /\ match process_result env j w2 with
           | (w3, tr3, Normal _) =>
               recognizer_loop env rec (data :: rest) w
               = match recognizer_loop env rec rest w3 with
                 | (w4, tr4, o) =>
                     (w4, [EvQueueGet data; EvAcceptWaveform rec data;
                           EvResult rec] ++ tr3 ++ tr4, o)
                 end
           | (w3, tr3, Raised e) =>
               is_Exception e = false
               /\ raised_by_device env e
               /\ recognizer_loop env rec (data :: rest) w
                  = (w3, [EvQueueGet data; EvAcceptWaveform rec data;
                          EvResult rec] ++ tr3, Raised e)
           end).
Proof.
  intros World env c ip w suite run.
  assert (Hrun : run = match suite with
                       | (w1, tr1, Normal _) => (w1, tr1, Normal tt)
                       | (w1, tr1, Raised e) =>
                           if is_Exception e
                           then (w1, tr1 ++ [EvPrint (error_line c e)],
                                 Normal tt)
                           else (w1, tr1, Raised e)
                       end) by apply kasa_op_by_suite.
  split; [intros e; apply kasa_suite_raises|].
  split; [|split; [|split; [|split; [|split]]]].
  - intros e Hraise Hcls. rewrite Hrun.
    unfold outcome_of, world_of, trace_of in *.
    destruct suite as [[w1 tr1] o]. cbn [fst snd] in *. subst o.
    now rewrite Hcls.
  - intros e Hraise Hcls.
    assert (Heq : run = (world_of suite, trace_of suite, Raised e)).
    { rewrite Hrun. unfold outcome_of, world_of, trace_of in *.
      destruct suite as [[w1 tr1] o]. cbn [fst snd] in *. subst o.
      now rewrite Hcls. }
    split; [exact Heq|].
    unfold device_op, bind, emit, outcome_of. fold run. now rewrite Heq.
  - intros Hnormal. rewrite Hrun. unfold outcome_of in Hnormal.
    destruct suite as [[w1 tr1] o]. cbn [snd] in Hnormal. now subst o.
  - intros e. apply kasa_op_raises.
  - intros faults. apply kasa_op_returns. exact faults.
  - intros rec data rest w1 w2 j Hacc Hres.
    split; [intros faults; now apply process_result_returns|].
    pose proof (process_result_raises env j w2) as Hraises.
    unfold outcome_of in Hraises.
    destruct (process_result env j w2) as [[w3 tr3] [[]|e]] eqn:Hproc.
    + eapply recognizer_loop_final; eassumption.
    + destruct (Hraises e eq_refl) as [Hcls Hblame].
      split; [exact Hcls|]. split; [exact Hblame|].
      cbn [recognizer_loop]. unfold bind at 1. unfold emit at 1.
      unfold bind at 1. unfold call at 1. rewrite Hacc.
      unfold bind at 1. unfold call at 1. rewrite Hres.
      unfold bind at 1. rewrite Hproc. reflexivity.
Qed.

Lemma offline_faults_are_Exceptions :
  device_faults_are_Exceptions Mock.offline.
Proof.
  intros w e. repeat split; intros x H; try discriminate H.
  cbn in H. injection H as <-. reflexivity.
Qed.

Lemma device_failures_are_caught_and_logged_witness :
  kasa_op Mock.offline OFF PLUG_IP (Mock.start [])
  = (Mock.bump (Mock.start []),
     [EvSmartPlug PLUG_IP; EvUpdate 0]
     ++ [EvPrint "[KASA] Error turning off: Unable to connect to the device"],
     Normal tt)
  /\ kasa_op Mock.interrupted OFF PLUG_IP (Mock.start [])
     = (Mock.bump (Mock.start []), [EvSmartPlug PLUG_IP; EvUpdate 0],
        Raised Mock.interrupt).
Proof.
  split.
  - exact (proj1 (proj2 (device_failures_are_caught_and_logged
             Mock.world Mock.offline OFF PLUG_IP (Mock.start [])))
           Mock.network_down eq_refl eq_refl).
  - exact (proj1 (proj1 (proj2 (proj2 (device_failures_are_caught_and_logged
             Mock.world Mock.interrupted OFF PLUG_IP (Mock.start []))))
           Mock.interrupt eq_refl eq_refl)).
Defined.

(** ** Counting events *)

Lemma count_app (p : event -> bool) (a b : list event) :
  count p (a ++ b) = count p a + count p b.
Proof.
  unfold count. now rewrite filter_app, length_app.
Qed.

Lemma count_cons (p : event -> bool) (ev : event) (tr : list event) :
  count p (ev :: tr) = (if p ev then 1 else 0) + count p tr.
Proof.
  unfold count. simpl. now destruct (p ev).
Qed.

Lemma trace_emit_then {World A} (ev : event) (m : M World A) (w : World) :
  trace_of ((emit ev ;;; m) w) = ev :: trace_of (m w).
Proof.
  unfold bind, emit, trace_of. now destruct (m w) as [[w1 tr1] o].
Qed.

Lemma kasa_op_counts {World} (env : Env World) c ip w :
  let tr := trace_of (kasa_op env c ip w) in
  count is_await tr = 0 /\ count is_session tr = 1
  /\ count is_state_change tr <= 1
  /\ count is_model_load tr = 0 /\ count is_queue_get tr = 0.
Proof.
  destruct c; unfold_ops; case_calls env; cbn; repeat split; lia.
Qed.

Lemma process_result_counts {World} (env : Env World) j w :
  let tr := trace_of (process_result env j w) in
  count is_await tr <= 1 /\ count is_session tr <= 1
  /\ count is_state_change tr <= 1
  /\ count is_model_load tr = 0 /\ count is_queue_get tr = 0.
Proof.
  unfold process_result.
  destruct (negb (PyStr.truthy (normalized_text j)));
    [cbn; repeat split; lia|].
  unfold print. rewrite trace_emit_then, !count_cons. cbn [is_await
    is_session is_state_change is_model_load is_queue_get].
  unfold dispatch.
  destruct (contains_keyword _ CMD_ON);
    [|destruct (contains_keyword _ CMD_OFF);
      [|destruct (contains_keyword _ CMD_TOGGLE)]];
    try (unfold device_op; rewrite trace_emit_then, !count_cons;
         cbn [is_await is_session is_state_change is_model_load
              is_queue_get];
         match goal with |- context [kasa_op env ?c ?ip ?w] =>
           pose proof (kasa_op_counts env c ip w) as H; cbv zeta in H;
           destruct H as (H1 & H2 & H3 & H4 & H5)
         end; rewrite H1, H2, H4, H5; repeat split; lia).
  cbn. repeat split; lia.
Qed.

Lemma trace_bind {World A B} (m : M World A) (k : A -> M World B) w :
  trace_of (bind m k w)
  = match m w with
    | (w1, tr1, Normal a) => tr1 ++ trace_of (k a w1)
    | (_, tr1, Raised _) => tr1
    end.
Proof.
  unfold bind, trace_of. destruct (m w) as [[w1 tr1] [a|e]]; [|reflexivity].
  now destruct (k a w1) as [[w2 tr2] o].
Qed.

Lemma recognizer_loop_counts {World} (env : Env World) rec chunks :
  forall w,
    let tr := trace_of (recognizer_loop env rec chunks w) in
    count is_model_load tr = 0 /\ count is_queue_get tr <= length chunks.
Proof.
  induction chunks as [|data rest IH]; intros w.
  - cbn. split; lia.
  - cbn [recognizer_loop length]. cbv zeta.
    rewrite trace_emit_then, !count_cons. cbn [is_model_load is_queue_get].
    rewrite trace_bind. unfold call; cbv beta.
    destruct (rec_AcceptWaveform env rec data w) as [w1 [[]|e]].
    + rewrite trace_bind. unfold call; cbv beta.
      destruct (rec_Result env rec w1) as [w2 [j|e]]; [|cbn; split; lia].
      rewrite trace_bind.
      pose proof (process_result_counts env j w2) as Hp. cbv zeta in Hp.
      unfold trace_of at 1 2 3 4 5 in Hp.
      destruct (process_result env j w2) as [[w3 tr3] [[]|e]];
        cbn [fst snd] in Hp; rewrite ?count_app, !count_cons;
        cbn [is_model_load is_queue_get].
      * specialize (IH w3). cbv zeta in IH. unfold count in *.
        cbn [filter length] in *. lia.
      * unfold count in *. cbn [filter length] in *. lia.
    + specialize (IH w1). cbv zeta in IH.
      rewrite ?count_app, !count_cons. cbn [is_model_load is_queue_get].
      unfold count in *. cbn [filter length] in *. lia.
    + cbn. split; lia.
Qed.

(** C10: whatever finalized result the loop handles, it awaits at most one
    device operation, opens at most one plug session and issues at most one
    state-changing command. *)
Theorem one_result_at_most_one_operation :
  forall (World : Type) (env : Env World) (j : dict) (w : World),
    let tr := trace_of (process_result env j w) in
    count is_await tr <= 1
    /\ count is_session tr <= 1
    /\ count is_state_change tr <= 1.
Proof.
  intros World env j w tr. subst tr.
  pose proof (process_result_counts env j w) as H. cbv zeta in H.
  tauto.
Qed.

(** ** Texts that run no command *)

Lemma empty_text_matches_nothing : command_matcher "" = None.
Proof. reflexivity. Qed.

(** C5: a finalized result whose text is empty, missing or white space only
    is normalised to the empty string, for which the matcher has no command;
    the loop goes to the next chunk without printing or calling anything. *)
Theorem blank_text_is_skipped :
  forall (World : Type) (env : Env World) (j : dict) (w : World),
    PyStr.all_space (dict_get j "text" "") = true ->
    normalized_text j = ""
    /\ command_matcher (normalized_text j) = None
    /\ process_result env j w = (w, [], Normal tt).
Proof.
  intros World env j w Hblank.
  assert (Hn : normalized_text j = "").
  { unfold normalized_text. apply strip_empty.
    now rewrite all_space_lower. }
  split; [exact Hn|]. unfold process_result. rewrite Hn.
  split; reflexivity.
Qed.

Lemma blank_text_is_skipped_witness :
  normalized_text [("text", "  ")] = ""
  /\ command_matcher (normalized_text [("text", "  ")]) = None
  /\ process_result Mock.online [("text", "  ")] (Mock.start [])
     = (Mock.start [], [], Normal tt).
Proof.
  exact (blank_text_is_skipped Mock.world Mock.online [("text", "  ")]
           (Mock.start []) eq_refl).
Defined.

Lemma no_keyword_no_group (text : string) :
  (forall kw, In kw all_keywords -> ~ is_substring kw text) ->
  contains_keyword text CMD_ON = false
  /\ contains_keyword text CMD_OFF = false
  /\ contains_keyword text CMD_TOGGLE = false.
Proof.
  intros Hnone.
  assert (Hgroup : forall group, incl group all_keywords ->
                                 contains_keyword text group = false).
  { intros group Hincl.
    destruct (contains_keyword text group) eqn:Hc; [|reflexivity].
    apply contains_keyword_spec in Hc. destruct Hc as (kw & Hin & Hsub).
    exfalso. exact (Hnone kw (Hincl kw Hin) Hsub). }
  unfold all_keywords in Hgroup.
  repeat split; apply Hgroup; intros kw Hin; rewrite !in_app_iff; tauto.
Qed.

(** C6 as stated fails on the transcription as the recognizer gives it: the
    text [TURN OFF] is not empty and holds no keyword, all of them being
    lower case, yet the OFF operation is awaited and no printed line holds
    that text; the text of two blanks is not empty and holds no keyword,
    and nothing is printed for it. *)
Lemma raw_text_is_not_what_is_matched :
  let shouted := [("text", "TURN OFF")] in
  let blank := [("text", "  ")] in
  let tr := trace_of (process_result Mock.online shouted (Mock.start [])) in
  (dict_get shouted "text" "" <> ""
   /\ (forall kw, In kw all_keywords ->
                  ~ is_substring kw (dict_get shouted "text" ""))
   /\ In (EvAwait OFF PLUG_IP) tr
   /\ count is_await tr = 1
   /\ (forall line, In (EvPrint line) tr ->
                    ~ is_substring (dict_get shouted "text" "") line))
  /\ (dict_get blank "text" "" <> ""
      /\ (forall kw, In kw all_keywords ->
                     ~ is_substring kw (dict_get blank "text" ""))
      /\ trace_of (process_result Mock.online blank (Mock.start [])) = []).
Proof.
  cbv zeta. split; [split; [|split; [|split; [|split]]]|split; [|split]].
  - discriminate.
  - intros kw Hin Hsub. apply str_in_spec in Hsub.
    unfold all_keywords in Hin. simpl in Hin.
    repeat (destruct Hin as [<- | Hin]; [discriminate Hsub|]). exact Hin.
  - vm_compute. tauto.
  - reflexivity.
  - intros line Hin Hsub. apply str_in_spec in Hsub.
    vm_compute in Hin.
    repeat (destruct Hin as [Hin | Hin];
            [try discriminate Hin; injection Hin as <-;
             discriminate Hsub|]).
    exact Hin.
  - discriminate.
  - intros kw Hin Hsub. apply str_in_spec in Hsub.
    unfold all_keywords in Hin. simpl in Hin.
    repeat (destruct Hin as [<- | Hin]; [discriminate Hsub|]). exact Hin.
  - reflexivity.
Qed.

(** C6, amended: for a transcription whose text after [.lower().strip()] is
    not empty and holds no keyword of any group, the loop prints the
    [Recognized:] line and a [No known command in:] line that carries that
    lowered and stripped text, and makes no device call. *)
Theorem unmatched_text_is_logged :
  forall (World : Type) (env : Env World) (j : dict) (w : World),
    let text := normalized_text j in
    text <> "" ->
    (forall kw, In kw all_keywords -> ~ is_substring kw text) ->
    process_result env j w
    = (w, [EvPrint ("Recognized: " ++ text);
           EvPrint ("No known command in: " ++ text)], Normal tt)
    /\ dispatch env text w
       = (w, [EvPrint ("No known command in: " ++ text)], Normal tt)
    /\ is_substring text ("No known command in: " ++ text).
Proof.
  intros World env j w text Hne Hnone.
  destruct (no_keyword_no_group text Hnone) as (Hon & Hoff & Htoggle).
  assert (Hd : dispatch env text w
               = (w, [EvPrint ("No known command in: " ++ text)], Normal tt)).
  { unfold dispatch. rewrite Hon, Hoff, Htoggle. reflexivity. }
  split; [|split; [exact Hd|]].
  - unfold process_result. fold text.
    destruct (PyStr.truthy text) eqn:Ht.
    + cbn [negb]. unfold bind, print at 1, emit at 1. rewrite Hd. reflexivity.
    + apply truthy_false in Ht. contradiction.
  - exists "No known command in: ", "". now rewrite append_empty_r.
Qed.

Lemma hello_there_has_no_keyword :
  forall kw, In kw all_keywords -> ~ is_substring kw "hello there".
Proof.
  intros kw Hin Hsub. apply str_in_spec in Hsub.
  unfold all_keywords in Hin. simpl in Hin.
  repeat (destruct Hin as [<- | Hin]; [discriminate Hsub|]).
  exact Hin.
Qed.

Lemma unmatched_text_is_logged_witness :
  normalized_text [("text", " Hello there")] = "hello there"
  /\ process_result Mock.online [("text", " Hello there")] (Mock.start [])
     = (Mock.start [],
        [EvPrint "Recognized: hello there";
         EvPrint "No known command in: hello there"], Normal tt).
Proof.
  split; [reflexivity|].
  refine (proj1 (unmatched_text_is_logged Mock.world Mock.online
                   [("text", " Hello there")] (Mock.start []) _ _)).
  - discriminate.
  - exact hello_there_has_no_keyword.
Defined.

(** ** Literal substring matching *)

(** C8: ["noon"] is a single word and shares no word with any keyword, yet
    the keyword ["on"] is a substring of it, so it matches the ON group and
    runs the ON command. *)
Theorem noon_resolves_to_on :
  split "noon" = ["noon"]
  /\ (forall kw word, In kw all_keywords -> In word (split kw) ->
      ~ In word (split "noon"))
  /\ is_substring "on" "noon"
  /\ contains_keyword "noon" CMD_ON = true
  /\ command_matcher "noon" = Some ON
  /\ (forall (World : Type) (env : Env World),
      dispatch env "noon" = device_op env ON PLUG_IP).
Proof.
  split; [reflexivity|]. split.
  - intros kw word Hkw Hword Hnoon.
    unfold all_keywords in Hkw. simpl in Hkw.
    assert (Hw : word = "noon").
    { vm_compute in Hnoon. destruct Hnoon as [Hw | []]. now symmetry. }
    subst word.
    repeat (destruct Hkw as [<- | Hkw];
            [vm_compute in Hword;
             repeat (destruct Hword as [Hword | Hword];
                     [discriminate Hword|]); exact Hword|]).
    exact Hkw.
  - split; [exists "no", ""; reflexivity|].
    split; [reflexivity|]. split; reflexivity.
Qed.

Lemma noon_resolves_to_on_witness :
  In "on" all_keywords /\ In "on" (split "on") /\ ~ In "on" (split "noon").
Proof.
  assert (Hkw : In "on" all_keywords) by (vm_compute; tauto).
  assert (Hword : In "on" (split "on")) by (left; reflexivity).
  split; [exact Hkw|]. split; [exact Hword|].
  exact (proj1 (proj2 noon_resolves_to_on) "on" "on" Hkw Hword).
Defined.

(** ** Startup *)

Lemma trace_with_cleanup {World} (cleanup : event)
    (body : M World loop_status) (w : World) :
  exists suffix,
    trace_of (with_cleanup cleanup body w) = trace_of (body w) ++ suffix
    /\ (suffix = [] \/ suffix = [cleanup]).
Proof.
  unfold with_cleanup, trace_of.
  destruct (body w) as [[w1 tr1] [[]|e]]; cbn [fst snd].
  - exists [cleanup]. auto.
  - exists []. rewrite app_nil_r. auto.
  - exists [cleanup]. auto.
Qed.

Lemma voice_loop_probe_falsy {World} (env : Env World) path chunks
    (w w1 : World) probe :
  vosk_Model env path w = (w1, Normal probe) ->
  model_truthy probe = false ->
  voice_loop env path chunks w
  = (w1, [EvModel path;
          EvPrint "Model not found or cannot be loaded. Check MODEL_PATH."],
     Normal Returned).
Proof.
  intros Hprobe Hfalsy. unfold voice_loop, bind at 1, call at 1.
  rewrite Hprobe, Hfalsy. reflexivity.
Qed.

Lemma voice_loop_probe_raises {World} (env : Env World) path chunks
    (w w1 : World) e :
  vosk_Model env path w = (w1, Raised e) ->
  voice_loop env path chunks w = (w1, [EvModel path], Raised e).
Proof.
  intros Hprobe. unfold voice_loop, bind at 1, call at 1.
  rewrite Hprobe. reflexivity.
Qed.

(** C3: when the first [Model(model_path)] raises or gives an object that is
    false under [not], [voice_loop] ends there: either it prints the error
    line and returns, or the exception leaves it; no recognizer is built, no
    stream opened, no chunk taken from the queue, and [main] is not left
    waiting for audio. *)
Theorem failed_model_load_aborts_startup :
  forall (World : Type) (env : Env World) (path : string)
         (chunks : list chunk) (w : World),
    load_failed (snd (vosk_Model env path w)) ->
    let run := voice_loop env path chunks w in
    ((trace_of run
      = [EvModel path;
         EvPrint "Model not found or cannot be loaded. Check MODEL_PATH."]
      /\ outcome_of run = Normal Returned)
     \/ (exists e, snd (vosk_Model env path w) = Raised e
                   /\ trace_of run = [EvModel path]
                   /\ outcome_of run = Raised e))
    /\ (path = MODEL_PATH ->
        outcome_of (main env chunks w) <> Normal AwaitingAudio
        /\ count is_queue_get (trace_of (main env chunks w)) = 0).
Proof.
  intros World env path chunks w Hfail run. subst run.
  destruct (vosk_Model env path w) as [w1 [probe|e]] eqn:Hprobe;
    cbn [snd load_failed] in Hfail.
  - pose proof (voice_loop_probe_falsy env path chunks w w1 probe
                  Hprobe Hfail) as Hrun.
    split.
    + left. rewrite Hrun. split; reflexivity.
    + intros ->. unfold main, with_cleanup, try_except_KeyboardInterrupt.
      rewrite Hrun. split; [discriminate | reflexivity].
  - pose proof (voice_loop_probe_raises env path chunks w w1 e Hprobe)
      as Hrun.
    split.
    + right. exists e. rewrite Hrun. repeat split; reflexivity.
    + intros ->. unfold main, with_cleanup, try_except_KeyboardInterrupt.
      rewrite Hrun. destruct (is_KeyboardInterrupt e);
        (split; [discriminate | reflexivity]).
Qed.

Lemma failed_model_load_aborts_startup_witness :
  let w := Mock.World false 0 Mock.Falsy (Mock.heard ["turn on"]) in
  load_failed (snd (vosk_Model Mock.online MODEL_PATH w))
  /\ outcome_of (main Mock.online [Mock.silence] w) <> Normal AwaitingAudio
  /\ count is_queue_get (trace_of (main Mock.online [Mock.silence] w)) = 0.
Proof.
  split; [reflexivity|].
  exact (proj2 (failed_model_load_aborts_startup Mock.world Mock.online
                  MODEL_PATH [Mock.silence]
                  (Mock.World false 0 Mock.Falsy (Mock.heard ["turn on"]))
                  eq_refl) eq_refl).
Defined.

(** C9: on a start that gets past the check, [voice_loop] calls
    [Model(model_path)] twice with the same path and never again; the first
    object only answers the [not] test, the recognizer is built from the
    second. *)
Theorem model_is_loaded_twice :
  forall (World : Type) (env : Env World) (path : string)
         (chunks : list chunk) (w w1 w2 : World) (probe model : model_obj),
    vosk_Model env path w = (w1, Normal probe) ->
    model_truthy probe = true ->
    vosk_Model env path w1 = (w2, Normal model) ->
    let tr := trace_of (voice_loop env path chunks w) in
    count is_model_load tr = 2
    /\ exists rest,
         tr = EvModel path :: EvModel path
              :: EvKaldiRecognizer (model_id model) SAMPLE_RATE :: rest.
Proof.
  intros World env path chunks w w1 w2 probe model Hprobe Htruthy Hmodel tr.
  assert (Hshape : exists rest,
             tr = EvModel path :: EvModel path
                  :: EvKaldiRecognizer (model_id model) SAMPLE_RATE :: rest
             /\ count is_model_load rest = 0).
  { subst tr. unfold voice_loop.
    rewrite trace_bind. unfold call at 1. rewrite Hprobe, Htruthy.
    cbn [negb]. rewrite trace_bind. unfold call at 1. rewrite Hmodel.
    rewrite trace_bind. unfold call at 1.
    destruct (vosk_KaldiRecognizer env model SAMPLE_RATE w2)
      as [w3 [rec|e]]; [|eexists; split; reflexivity].
    rewrite trace_bind. unfold call at 1.
    destruct (rec_SetWords env rec false w3)
      as [w4 [[]|e]]; [|eexists; split; reflexivity].
    rewrite trace_bind. unfold call at 1.
    destruct (sd_RawInputStream env w4)
      as [w5 [[]|e]]; [|eexists; split; reflexivity].
    match goal with |- context [with_cleanup ?c ?body ?w] =>
      destruct (trace_with_cleanup c body w) as (suffix & -> & Hsuffix)
    end.
    unfold print. rewrite !trace_emit_then.
    eexists. split; [reflexivity|].
    pose proof (recognizer_loop_counts env rec chunks w5) as Hloop.
    cbv zeta in Hloop. destruct Hloop as [Hloop _].
    cbn [app]. rewrite !count_cons, count_app, Hloop.
    cbn [is_model_load]. destruct Hsuffix as [-> | ->]; reflexivity. }
  destruct Hshape as (rest & Htr & Hrest). split; [|now exists rest].
  rewrite Htr, !count_cons, Hrest. reflexivity.
Qed.

Lemma model_is_loaded_twice_witness :
  let tr := trace_of (voice_loop Mock.online MODEL_PATH [Mock.silence]
                        (Mock.start ["turn on"])) in
  count is_model_load tr = 2
  /\ exists rest,
       tr = EvModel MODEL_PATH :: EvModel MODEL_PATH
            :: EvKaldiRecognizer 1 SAMPLE_RATE :: rest.
Proof.
  exact (model_is_loaded_twice Mock.world Mock.online MODEL_PATH
           [Mock.silence] (Mock.start ["turn on"])
           (Mock.bump (Mock.start ["turn on"]))
           (Mock.bump (Mock.bump (Mock.start ["turn on"])))
           (ModelObj 0 true) (ModelObj 1 true) eq_refl eq_refl eq_refl).
Defined.

(** * Further properties of the program *)

(** ** Keyword matching *)

Lemma append_assoc_string (a b c : string) :
  ((a ++ b) ++ c)%string = (a ++ b ++ c)%string.
Proof.
  induction a as [|x a IH]; simpl; [reflexivity | now rewrite IH].
Qed.

Lemma is_substring_trans (a b c : string) :
  is_substring a b -> is_substring b c -> is_substring a c.
Proof.
  intros (p1 & s1 & ->) (p2 & s2 & ->).
  exists (p2 ++ p1)%string, (s1 ++ s2)%string.
  now rewrite !append_assoc_string.
Qed.

Lemma str_in_trans (a b c : string) :
  PyStr.str_in a b = true -> PyStr.str_in b c = true ->
  PyStr.str_in a c = true.
Proof.
  rewrite !str_in_spec. apply is_substring_trans.
Qed.

(** X1: [contains_keyword] answers [True] exactly when some keyword of the tuple
    occurs in the text as a contiguous run of characters; an empty tuple
    never matches. *)
Theorem contains_keyword_iff_some_keyword_occurs :
  forall (text : string) (keywords : list string),
    (contains_keyword text keywords = true
     <-> exists kw, In kw keywords /\ is_substring kw text)
    /\ contains_keyword text [] = false.
Proof.
  intros text keywords. split; [apply contains_keyword_spec | reflexivity].
Qed.

(** X2: a match survives more context and more keywords: a text that matches
    still matches when it is embedded in a longer text and when keywords are
    added to the tuple. *)
Theorem contains_keyword_monotone :
  forall (text longer : string) (keywords more : list string),
    is_substring text longer ->
    incl keywords more ->
    contains_keyword text keywords = true ->
    contains_keyword longer more = true.
Proof.
  intros text longer keywords more Hsub Hincl Hmatch.
  apply contains_keyword_spec in Hmatch.
  destruct Hmatch as (kw & Hin & Hkw).
  apply contains_keyword_spec. exists kw. split; [now apply Hincl|].
  now apply is_substring_trans with text.
Qed.

Lemma contains_keyword_monotone_witness :
  contains_keyword "please turn on the light now" CMD_ON = true.
Proof.
  apply (contains_keyword_monotone "turn on" "please turn on the light now"
           ["turn on"] CMD_ON).
  - exists "please ", " the light now". reflexivity.
  - intros kw [<- | []]. simpl. tauto.
  - reflexivity.
Defined.

(** X3: the longer keywords of the ON and OFF groups decide nothing: the ON
    group matches exactly the texts with ["on"] in them and the OFF group
    those with ["off"], so the command parsing of [voice_loop] comes down to
    four tests, on ["on"], ["off"], ["toggle"] and ["switch"]. *)
Theorem dispatch_by_short_keywords :
  forall (World : Type) (env : Env World) (text : string),
    contains_keyword text CMD_ON = PyStr.str_in "on" text
    /\ contains_keyword text CMD_OFF = PyStr.str_in "off" text
    /\ dispatch env text
       = if PyStr.str_in "on" text then device_op env ON PLUG_IP
         else if PyStr.str_in "off" text then device_op env OFF PLUG_IP
         else if PyStr.str_in "toggle" text || PyStr.str_in "switch" text
              then device_op env TOGGLE PLUG_IP
              else print ("No known command in: " ++ text).
Proof.
  intros World env text.
  assert (Hon : contains_keyword text CMD_ON = PyStr.str_in "on" text).
  { unfold CMD_ON. cbn [contains_keyword].
    destruct (PyStr.str_in "on" text) eqn:Hshort.
    - destruct (PyStr.str_in "turn on" text); [reflexivity|].
      destruct (PyStr.str_in "switch on" text); reflexivity.
    - assert (Hlong : forall kw, PyStr.str_in "on" kw = true ->
                                 PyStr.str_in kw text = false).
      { intros kw Hkw. destruct (PyStr.str_in kw text) eqn:Hk;
          [|reflexivity].
        rewrite (str_in_trans _ _ _ Hkw Hk) in Hshort. discriminate. }
      rewrite (Hlong "turn on" eq_refl), (Hlong "switch on" eq_refl).
      reflexivity. }
  assert (Hoff : contains_keyword text CMD_OFF = PyStr.str_in "off" text).
  { unfold CMD_OFF. cbn [contains_keyword].
    destruct (PyStr.str_in "off" text) eqn:Hshort.
    - destruct (PyStr.str_in "turn off" text); [reflexivity|].
      destruct (PyStr.str_in "switch off" text); reflexivity.
    - assert (Hlong : forall kw, PyStr.str_in "off" kw = true ->
                                 PyStr.str_in kw text = false).
      { intros kw Hkw. destruct (PyStr.str_in kw text) eqn:Hk;
          [|reflexivity].
        rewrite (str_in_trans _ _ _ Hkw Hk) in Hshort. discriminate. }
      rewrite (Hlong "turn off" eq_refl), (Hlong "switch off" eq_refl).
      reflexivity. }
  split; [exact Hon|]. split; [exact Hoff|].
  unfold dispatch. rewrite Hon, Hoff.
  destruct (PyStr.str_in "on" text); [reflexivity|].
  destruct (PyStr.str_in "off" text); [reflexivity|].
  unfold CMD_TOGGLE. cbn [contains_keyword].
  destruct (PyStr.str_in "toggle" text); [reflexivity|].
  destruct (PyStr.str_in "switch" text); reflexivity.
Qed.

(** ** Normalisation of the recognized text *)

Section Normalisation.

Import PyStr.

Lemma lower_char_idem (c : ascii) : lower_char (lower_char c) = lower_char c.
Proof.
  destruct c as [[] [] [] [] [] [] [] []]; reflexivity.
Qed.

Lemma lower_idem (s : string) : lower (lower s) = lower s.
Proof.
  induction s as [|c s IH]; simpl; [reflexivity|].
  now rewrite lower_char_idem, IH.
Qed.

Lemma lower_lstrip (s : string) : lower (lstrip s) = lstrip (lower s).
Proof.
  induction s as [|c s IH]; simpl; [reflexivity|].
  rewrite isspace_lower_char. now destruct (isspace c).
Qed.

Lemma lower_rstrip (s : string) : lower (rstrip s) = rstrip (lower s).
Proof.
  induction s as [|c s IH]; simpl; [reflexivity|].
  rewrite <- IH, isspace_lower_char.
  destruct (rstrip s); simpl; [now destruct (isspace c) | reflexivity].
Qed.

Lemma rstrip_idem (s : string) : rstrip (rstrip s) = rstrip s.
Proof.
  induction s as [|c s IH]; simpl; [reflexivity|].
  destruct (rstrip s) as [|k kept] eqn:Hr.
  - destruct (isspace c) eqn:Hc; simpl; [reflexivity | now rewrite Hc].
  - change (rstrip (String c (String k kept))) with
      (match rstrip (String k kept) with
       | EmptyString => if isspace c then EmptyString else String c EmptyString
       | kept' => String c kept'
       end).
    now rewrite IH.
Qed.

Lemma lstrip_head (s : string) :
  lstrip s = ""
  \/ exists c rest, lstrip s = String c rest /\ isspace c = false.
Proof.
  induction s as [|c s IH]; simpl; [now left|].
  destruct (isspace c) eqn:Hc; [exact IH|]. right. eauto.
Qed.

Lemma lstrip_strip (s : string) : lstrip (strip s) = strip s.
Proof.
  unfold strip. destruct (lstrip_head s) as [-> | (c & rest & -> & Hc)];
    [reflexivity|].
  simpl. destruct (rstrip rest); rewrite ?Hc; simpl; rewrite ?Hc;
    reflexivity.
Qed.

Lemma strip_idem (s : string) : strip (strip s) = strip s.
Proof.
  unfold strip at 1. rewrite lstrip_strip. unfold strip. apply rstrip_idem.
Qed.

Lemma lower_strip (s : string) : lower (strip s) = strip (lower s).
Proof.
  unfold strip. now rewrite lower_rstrip, lower_lstrip.
Qed.

End Normalisation.

(** X4: the text the loop works on is a fixed point of the normalisation:
    lower-casing and stripping it again changes nothing, it has no white
    space at either end, and [.strip().lower()] would give the same text as
    [.lower().strip()]. *)
Theorem normalized_text_is_normal :
  forall (j : dict),
    let text := normalized_text j in
    normalized_text [("text", text)] = text
    /\ PyStr.lower text = text
    /\ PyStr.lstrip text = text
    /\ PyStr.rstrip text = text
    /\ text = PyStr.lower (PyStr.strip (dict_get j "text" "")).
Proof.
  intros j text. subst text. unfold normalized_text.
  set (raw := dict_get j "text" "").
  assert (Hlow : PyStr.lower (PyStr.strip (PyStr.lower raw))
                 = PyStr.strip (PyStr.lower raw))
    by now rewrite lower_strip, lower_idem.
  split; [|split; [exact Hlow|split; [apply lstrip_strip|split]]].
  - cbn [dict_get]. change (String.eqb "text" "text") with true. cbv iota.
    now rewrite Hlow, strip_idem.
  - unfold PyStr.strip at 2. apply rstrip_idem.
  - now rewrite lower_strip.
Qed.

(** ** The device operations, continued *)

(** X5: [kasa_turn_on] never sends [turn_off], [kasa_turn_off] never sends
    [turn_on], and [kasa_toggle] sends at most one of the two. *)
Theorem operations_send_only_their_command :
  forall (World : Type) (env : Env World) (ip : string) (w : World),
    count is_turn_off (trace_of (kasa_turn_on env ip w)) = 0
    /\ count is_turn_on (trace_of (kasa_turn_off env ip w)) = 0
    /\ count is_turn_on (trace_of (kasa_toggle env ip w))
       + count is_turn_off (trace_of (kasa_toggle env ip w)) <= 1.
Proof.
  intros World env ip w.
  split; [|split]; unfold_ops; case_calls env; cbn; lia.
Qed.

(** X6: an operation that returns has printed exactly one line, as the last
    thing it did; an operation left by an exception has printed nothing, and
    that exception is not of class [Exception]. *)
Theorem one_line_per_operation :
  forall (World : Type) (env : Env World) (c : command) (ip : string)
         (w : World),
    let run := kasa_op env c ip w in
    match outcome_of run with
    | Normal _ =>
        count is_print (trace_of run) = 1
        /\ exists line, last (trace_of run) EvFlush = EvPrint line
    | Raised e =>
        count is_print (trace_of run) = 0 /\ is_Exception e = false
    end.
Proof.
  intros World env c ip w.
  destruct c; unfold_ops; case_calls env; cbn;
    (split; [reflexivity | solve [eexists; reflexivity | assumption]]).
Qed.

(** ** The recognizer loop, continued *)

Lemma recognizer_loop_cons {World} (env : Env World) rec data rest w :
  recognizer_loop env rec (data :: rest) w
  = match rec_AcceptWaveform env rec data w with
    | (w1, Raised e) =>
        (w1, [EvQueueGet data; EvAcceptWaveform rec data], Raised e)
    | (w1, Normal false) =>
        match recognizer_loop env rec rest w1 with
        | (w4, tr4, o) =>
            (w4, [EvQueueGet data; EvAcceptWaveform rec data] ++ tr4, o)
        end
    | (w1, Normal true) =>
        match rec_Result env rec w1 with
        | (w2, Raised e) =>
            (w2, [EvQueueGet data; EvAcceptWaveform rec data; EvResult rec],
             Raised e)
        | (w2, Normal j) =>
            match process_result env j w2 with
            | (w3, tr3, Raised e) =>
                (w3, [EvQueueGet data; EvAcceptWaveform rec data;
                      EvResult rec] ++ tr3, Raised e)
            | (w3, tr3, Normal _) =>
                match recognizer_loop env rec rest w3 with
                | (w4, tr4, o) =>
                    (w4, [EvQueueGet data; EvAcceptWaveform rec data;
                          EvResult rec] ++ tr3 ++ tr4, o)
                end
            end
        end
    end.
Proof.
  cbn [recognizer_loop]. unfold bind at 1. unfold emit at 1.
  unfold bind at 1. unfold call at 1.
  destruct (rec_AcceptWaveform env rec data w) as [w1 [[]|e]];
    [| |reflexivity].
  - unfold bind at 1. unfold call at 1.
    destruct (rec_Result env rec w1) as [w2 [j|e]]; [|reflexivity].
    unfold bind at 1.
    destruct (process_result env j w2) as [[w3 tr3] [[]|e]]; [|reflexivity].
    destruct (recognizer_loop env rec rest w3) as [[w4 tr4] o]. reflexivity.
  - destruct (recognizer_loop env rec rest w1) as [[w4 tr4] o]. reflexivity.
Qed.

Lemma queue_gets_app (a b : list event) :
  queue_gets (a ++ b) = queue_gets a ++ queue_gets b.
Proof.
  induction a as [|ev a IH]; simpl; [reflexivity|].
  destruct ev; simpl; now rewrite ?IH.
Qed.

Lemma queue_gets_none (tr : list event) :
  count is_queue_get tr = 0 -> queue_gets tr = [].
Proof.
  induction tr as [|ev tr IH]; [reflexivity|].
  rewrite count_cons. destruct ev; simpl; intros H;
    solve [discriminate H | apply IH; exact H].
Qed.

Lemma process_result_no_get {World} (env : Env World) j w :
  queue_gets (trace_of (process_result env j w)) = [].
Proof.
  apply queue_gets_none.
  pose proof (process_result_counts env j w) as H. cbv zeta in H. tauto.
Qed.

Lemma kasa_op_events {World} (env : Env World) rec c w :
  Forall (loop_event rec) (trace_of (kasa_op env c PLUG_IP w)).
Proof.
  destruct c; unfold_ops; case_calls env;
    repeat constructor.
Qed.

Lemma process_result_events {World} (env : Env World) rec j w :
  Forall (loop_event rec) (trace_of (process_result env j w)).
Proof.
  unfold process_result.
  destruct (negb (PyStr.truthy (normalized_text j))); [constructor|].
  unfold print. rewrite trace_emit_then. constructor; [exact I|].
  unfold dispatch.
  destruct (contains_keyword _ CMD_ON);
    [|destruct (contains_keyword _ CMD_OFF);
      [|destruct (contains_keyword _ CMD_TOGGLE)]];
    try (unfold device_op; rewrite trace_emit_then;
         constructor; [reflexivity | apply kasa_op_events]).
  repeat constructor.
Qed.

(** Facts about one run of the loop, proved together by induction on the
    chunks. *)
Lemma recognizer_loop_run {World} (env : Env World) rec chunks :
  forall w,
    let run := recognizer_loop env rec chunks w in
    Forall (loop_event rec) (trace_of run)
    /\ (exists rest, chunks = queue_gets (trace_of run) ++ rest
                     /\ (outcome_of run = Normal AwaitingAudio -> rest = []))
    /\ outcome_of run <> Normal Returned
    /\ count is_await (trace_of run) <= length (queue_gets (trace_of run)).
Proof.
  induction chunks as [|data rest IH]; intros w; cbv zeta.
  - cbn. repeat split; try constructor; try discriminate.
    exists []. auto.
  - rewrite recognizer_loop_cons.
    destruct (rec_AcceptWaveform env rec data w) as [w1 [[]|e]].
    + destruct (rec_Result env rec w1) as [w2 [j|e]].
      * pose proof (process_result_events env rec j w2) as Hev.
        pose proof (process_result_no_get env j w2) as Hget.
        pose proof (process_result_counts env j w2) as Hcount.
        cbv zeta in Hcount. destruct Hcount as [Hawait _].
        unfold trace_of in Hev, Hget, Hawait.
        destruct (process_result env j w2) as [[w3 tr3] [[]|e]];
          cbn [fst snd] in Hev, Hget, Hawait.
        -- specialize (IH w3). cbv zeta in IH.
           destruct (recognizer_loop env rec rest w3) as [[w4 tr4] o].
           unfold trace_of, outcome_of in *. cbn [fst snd] in *.
           destruct IH as (IHev & (tl & IHq & IHend) & IHret & IHcount).
           repeat split.
           ++ repeat (constructor; [simpl; auto|]).
              apply Forall_app. split; assumption.
           ++ exists tl. cbn [app queue_gets].
              rewrite queue_gets_app, Hget. cbn [app]. split; [|exact IHend].
              now rewrite IHq at 1.
           ++ exact IHret.
           ++ cbn [app queue_gets]. rewrite queue_gets_app, Hget.
              rewrite !count_cons, count_app. cbn [is_await app length]. lia.
        -- unfold trace_of, outcome_of. cbn [fst snd].
           repeat split.
           ++ repeat (constructor; [simpl; auto|]). exact Hev.
           ++ exists rest. cbn [app queue_gets]. rewrite Hget.
              split; [reflexivity | discriminate].
           ++ discriminate.
           ++ cbn [app queue_gets]. rewrite Hget, !count_cons.
              cbn [is_await length]. lia.
      * unfold trace_of, outcome_of. cbn [fst snd].
        repeat split; try discriminate.
        -- repeat (constructor; [simpl; auto|]). constructor.
        -- exists rest. split; [reflexivity | discriminate].
        -- cbn. lia.
    + specialize (IH w1). cbv zeta in IH.
      destruct (recognizer_loop env rec rest w1) as [[w4 tr4] o].
      unfold trace_of, outcome_of in *. cbn [fst snd] in *.
      destruct IH as (IHev & (tl & IHq & IHend) & IHret & IHcount).
      repeat split.
      * repeat (constructor; [simpl; auto|]). exact IHev.
      * exists tl. cbn [app queue_gets]. split; [|exact IHend].
        now rewrite IHq at 1.
      * exact IHret.
      * cbn [app queue_gets]. rewrite !count_cons.
        cbn [is_await length]. lia.
    + unfold trace_of, outcome_of. cbn [fst snd].
      repeat split; try discriminate.
      * repeat (constructor; [simpl; auto|]). constructor.
      * exists rest. split; [reflexivity | discriminate].
      * cbn. lia.
Qed.

(** X7: the loop takes the chunks from the queue one by one in queue order: the
    chunks it has taken are an initial part of the queue, all of it when the
    loop is back in [q.get()]; the loop itself never returns. *)
Theorem chunks_are_taken_in_queue_order :
  forall (World : Type) (env : Env World) (rec : nat)
         (chunks : list chunk) (w : World),
    let run := recognizer_loop env rec chunks w in
    (exists rest, chunks = queue_gets (trace_of run) ++ rest
                  /\ (outcome_of run = Normal AwaitingAudio -> rest = []))
    /\ outcome_of run <> Normal Returned.
Proof.
  intros World env rec chunks w run.
  pose proof (recognizer_loop_run env rec chunks w) as H. cbv zeta in H.
  subst run. tauto.
Qed.

(** X8: whatever is recognized, the loop only takes chunks, asks its own
    recognizer, prints, and works on the plug at [PLUG_IP]: every awaited
    operation and every [SmartPlug] session is for that address, and the
    loop loads no model and closes neither the stream nor the event loop. *)
Theorem loop_works_only_on_the_configured_plug :
  forall (World : Type) (env : Env World) (rec : nat)
         (chunks : list chunk) (w : World),
    Forall (loop_event rec) (trace_of (recognizer_loop env rec chunks w)).
Proof.
  intros World env rec chunks w.
  pose proof (recognizer_loop_run env rec chunks w) as H. cbv zeta in H.
  tauto.
Qed.

(** X9: over a whole run the loop awaits at most one device operation per chunk
    taken from the queue. *)
Theorem at_most_one_operation_per_chunk :
  forall (World : Type) (env : Env World) (rec : nat)
         (chunks : list chunk) (w : World),
    let tr := trace_of (recognizer_loop env rec chunks w) in
    count is_await tr <= length (queue_gets tr)
    /\ length (queue_gets tr) <= length chunks.
Proof.
  intros World env rec chunks w tr.
  pose proof (recognizer_loop_run env rec chunks w) as H. cbv zeta in H.
  destruct H as (_ & (rest & Hq & _) & _ & Hcount). fold tr in Hq, Hcount.
  split; [exact Hcount|].
  apply (f_equal (@length chunk)) in Hq. rewrite length_app in Hq. lia.
Qed.

Lemma recognizer_loop_keeps_going {World} (env : Env World) :
  device_faults_are_Exceptions env ->
  recognizer_never_raises env ->
  forall rec chunks w,
    outcome_of (recognizer_loop env rec chunks w) = Normal AwaitingAudio.
Proof.
  intros faults quiet rec chunks.
  induction chunks as [|data rest IH]; intros w; [reflexivity|].
  rewrite recognizer_loop_cons.
  pose proof (fun e => proj1 (quiet rec w e) data) as Hacc.
  destruct (rec_AcceptWaveform env rec data w) as [w1 [[]|e]].
  - pose proof (fun e => proj2 (quiet rec w1 e)) as Hres.
    destruct (rec_Result env rec w1) as [w2 [j|e]].
    + pose proof (process_result_returns env faults j w2) as Hret.
      unfold outcome_of in Hret.
      destruct (process_result env j w2) as [[w3 tr3] [[]|e]];
        [|discriminate Hret].
      specialize (IH w3).
      destruct (recognizer_loop env rec rest w3) as [[w4 tr4] o]. exact IH.
    + exfalso. exact (Hres e eq_refl).
  - specialize (IH w1).
    destruct (recognizer_loop env rec rest w1) as [[w4 tr4] o]. exact IH.
  - exfalso. exact (Hacc e eq_refl).
Qed.

(** X10: when the plug fails only with exceptions of class [Exception] and the
    recognizer does not raise, no run of the loop ends: every queued chunk is
    taken, in order, and the loop is back in [q.get()]. *)
Theorem loop_outlives_device_failures :
  forall (World : Type) (env : Env World),
    device_faults_are_Exceptions env ->
    recognizer_never_raises env ->
    forall (rec : nat) (chunks : list chunk) (w : World),
      let run := recognizer_loop env rec chunks w in
      outcome_of run = Normal AwaitingAudio
      /\ queue_gets (trace_of run) = chunks.
Proof.
  intros World env faults quiet rec chunks w run.
  pose proof (recognizer_loop_keeps_going env faults quiet rec chunks w)
    as Hgo.
  pose proof (recognizer_loop_run env rec chunks w) as H. cbv zeta in H.
  destruct H as (_ & (rest & Hq & Hend) & _). fold run in Hgo, Hq, Hend.
  split; [exact Hgo|].
  rewrite (Hend Hgo), app_nil_r in Hq. now symmetry.
Qed.

Lemma mock_recognizer_never_raises (fault : option pyexn) :
  recognizer_never_raises (Mock.env fault).
Proof.
  intros rec w e. split; [intros data|]; discriminate.
Qed.

Lemma loop_outlives_device_failures_witness :
  let run := recognizer_loop Mock.offline 0 [Mock.silence; Mock.silence]
               (Mock.start ["turn on"; "switch"]) in
  outcome_of run = Normal AwaitingAudio
  /\ queue_gets (trace_of run) = [Mock.silence; Mock.silence].
Proof.
  exact (loop_outlives_device_failures Mock.world Mock.offline
           offline_faults_are_Exceptions
           (mock_recognizer_never_raises (Some Mock.network_down))
           0 [Mock.silence; Mock.silence]
           (Mock.start ["turn on"; "switch"])).
Defined.

(** X11: while the recognizer finalizes nothing, the loop only takes chunks and
    feeds them to the recognizer: no result is read, nothing is printed and
    no device operation is run. *)
Theorem partial_results_are_discarded :
  forall (World : Type) (env : Env World) (rec : nat),
    (forall data w, snd (rec_AcceptWaveform env rec data w) = Normal false) ->
    forall (chunks : list chunk) (w : World),
      let run := recognizer_loop env rec chunks w in
      trace_of run
      = flat_map (fun data => [EvQueueGet data; EvAcceptWaveform rec data])
          chunks
      /\ outcome_of run = Normal AwaitingAudio.
Proof.
  intros World env rec Hdeaf chunks.
  induction chunks as [|data rest IH]; intros w; cbv zeta;
    [split; reflexivity|].
  rewrite recognizer_loop_cons. specialize (Hdeaf data w).
  destruct (rec_AcceptWaveform env rec data w) as [w1 o].
  cbn [snd] in Hdeaf. subst o.
  specialize (IH w1). cbv zeta in IH. destruct IH as [IHtr IHout].
  destruct (recognizer_loop env rec rest w1) as [[w4 tr4] o].
  unfold trace_of, outcome_of in *. cbn [fst snd] in *.
  subst. split; reflexivity.
Qed.

Lemma partial_results_are_discarded_witness :
  let run := recognizer_loop deaf 0 [Mock.silence; Mock.silence]
               (Mock.start ["turn on"]) in
  trace_of run
  = [EvQueueGet Mock.silence; EvAcceptWaveform 0 Mock.silence;
     EvQueueGet Mock.silence; EvAcceptWaveform 0 Mock.silence]
  /\ outcome_of run = Normal AwaitingAudio.
Proof.
  exact (partial_results_are_discarded Mock.world deaf 0
           (fun _ _ => eq_refl) [Mock.silence; Mock.silence]
           (Mock.start ["turn on"])).
Defined.

(** ** Start-up and shutdown *)

(** X12: a start-up in which every call succeeds does, in this order: the two
    model loads, the recognizer at [SAMPLE_RATE], [SetWords(False)], the
    stream at 16000 Hz, blocks of 8000 frames, one channel, the banner and
    the flush; only then the first chunk is taken.  When an exception leaves
    the loop the stream is left right after it, and not while the loop
    waits. *)
Theorem startup_then_loop :
  forall (World : Type) (env : Env World) (path : string)
         (chunks : list chunk) (w w1 w2 w3 w4 w5 : World)
         (probe model : model_obj) (rec : nat),
    vosk_Model env path w = (w1, Normal probe) ->
    model_truthy probe = true ->
    vosk_Model env path w1 = (w2, Normal model) ->
    vosk_KaldiRecognizer env model SAMPLE_RATE w2 = (w3, Normal rec) ->
    rec_SetWords env rec false w3 = (w4, Normal tt) ->
    sd_RawInputStream env w4 = (w5, Normal tt) ->
    voice_loop env path chunks w
    = match recognizer_loop env rec chunks w5 with
      | (w6, tr, Normal _) =>
          (w6, startup_events path (model_id model) rec ++ tr,
           Normal AwaitingAudio)
      | (w6, tr, Raised e) =>
          (w6, startup_events path (model_id model) rec ++ tr
               ++ [EvStreamExit], Raised e)
      end.
Proof.
  intros World env path chunks w w1 w2 w3 w4 w5 probe model rec
    Hprobe Htruthy Hmodel Hrec Hset Hstream.
  pose proof (recognizer_loop_run env rec chunks w5) as Hrun.
  cbv zeta in Hrun. destruct Hrun as (_ & _ & Hnever & _).
  unfold voice_loop. unfold bind at 1. unfold call at 1.
  rewrite Hprobe, Htruthy. cbn [negb].
  unfold bind at 1. unfold call at 1. rewrite Hmodel.
  unfold bind at 1. unfold call at 1. rewrite Hrec.
  unfold bind at 1. unfold call at 1. rewrite Hset.
  unfold bind at 1. unfold call at 1. rewrite Hstream.
  unfold with_cleanup, bind, print, emit.
  unfold outcome_of in Hnever.
  destruct (recognizer_loop env rec chunks w5) as [[w6 tr] [[]|e]];
    cbn [snd] in Hnever; [contradiction | reflexivity | reflexivity].
Qed.

Lemma startup_then_loop_witness :
  voice_loop Mock.interrupted MODEL_PATH [Mock.silence; Mock.silence]
    (Mock.start ["switch"])
  = (Mock.World false 4 Mock.Loadable [],
     startup_events MODEL_PATH 1 2
     ++ [EvQueueGet Mock.silence; EvAcceptWaveform 2 Mock.silence;
         EvResult 2; EvPrint "Recognized: switch";
         EvAwait TOGGLE PLUG_IP; EvSmartPlug PLUG_IP; EvUpdate 3]
     ++ [EvStreamExit], Raised Mock.interrupt).
Proof.
  exact (startup_then_loop Mock.world Mock.interrupted MODEL_PATH
           [Mock.silence; Mock.silence] (Mock.start ["switch"])
           (Mock.World false 1 Mock.Loadable (Mock.heard ["switch"]))
           (Mock.World false 2 Mock.Loadable (Mock.heard ["switch"]))
           (Mock.World false 3 Mock.Loadable (Mock.heard ["switch"]))
           (Mock.World false 3 Mock.Loadable (Mock.heard ["switch"]))
           (Mock.World false 3 Mock.Loadable (Mock.heard ["switch"]))
           (ModelObj 0 true) (ModelObj 1 true) 2
           eq_refl eq_refl eq_refl eq_refl eq_refl eq_refl).
Defined.

Lemma loop_events_no_close (rec : nat) (tr : list event) :
  Forall (loop_event rec) tr -> count is_loop_close tr = 0.
Proof.
  induction 1 as [|ev tr Hev _ IH]; [reflexivity|].
  rewrite count_cons, IH. destruct ev; simpl in Hev; try contradiction;
    reflexivity.
Qed.

Lemma voice_loop_no_close {World} (env : Env World) path chunks w :
  count is_loop_close (trace_of (voice_loop env path chunks w)) = 0.
Proof.
  unfold voice_loop. rewrite trace_bind. unfold call at 1.
  destruct (vosk_Model env path w) as [w1 [probe|e]]; [|reflexivity].
  destruct (negb (model_truthy probe)); [reflexivity|].
  rewrite trace_bind. unfold call at 1.
  destruct (vosk_Model env path w1) as [w2 [model|e]]; [|reflexivity].
  rewrite trace_bind. unfold call at 1.
  destruct (vosk_KaldiRecognizer env model SAMPLE_RATE w2)
    as [w3 [rec|e]]; [|reflexivity].
  rewrite trace_bind. unfold call at 1.
  destruct (rec_SetWords env rec false w3) as [w4 [[]|e]]; [|reflexivity].
  rewrite trace_bind. unfold call at 1.
  destruct (sd_RawInputStream env w4) as [w5 [[]|e]]; [|reflexivity].
  match goal with |- context [with_cleanup ?c ?body ?w] =>
    destruct (trace_with_cleanup c body w) as (suffix & -> & Hsuffix)
  end.
  unfold print. rewrite !trace_emit_then.
  pose proof (recognizer_loop_run env rec chunks w5) as Hrun.
  cbv zeta in Hrun. destruct Hrun as (Hev & _).
  apply loop_events_no_close in Hev.
  cbn [app]. rewrite !count_cons, count_app, Hev.
  cbn [is_loop_close]. destruct Hsuffix as [-> | ->]; reflexivity.
Qed.

(** X13: [main] calls [loop.close()] exactly once on every way out of
    [voice_loop] and not while the loop waits for audio.  A
    [KeyboardInterrupt] that leaves [voice_loop] becomes a normal return
    after the line [Stopping...]; any other exception is raised again after
    [loop.close()]. *)
Theorem main_closes_the_event_loop_on_every_exit :
  forall (World : Type) (env : Env World) (chunks : list chunk) (w : World),
    let v := voice_loop env MODEL_PATH chunks w in
    let m := main env chunks w in
    count is_loop_close (trace_of v) = 0
    /\ match outcome_of v with
       | Normal AwaitingAudio => m = v
       | Normal Returned =>
           m = (world_of v, trace_of v ++ [EvLoopClose], Normal Returned)
       | Raised e =>
           if is_KeyboardInterrupt e
           then m = (world_of v,
                     trace_of v
                     ++ [EvPrint (String (ascii_of_nat 10) "Stopping...");
                         EvLoopClose], Normal Returned)
           else m = (world_of v, trace_of v ++ [EvLoopClose], Raised e)
       end.
Proof.
  intros World env chunks w v m. split; [apply voice_loop_no_close|].
  subst m. unfold main, with_cleanup, try_except_KeyboardInterrupt.
  fold v. unfold world_of, trace_of, outcome_of, print, emit.
  destruct v as [[w1 tr1] [[]|e]]; cbn [fst snd]; try reflexivity.
  destruct (is_KeyboardInterrupt e); [|reflexivity].
  now rewrite <- app_assoc.
Qed.

(** ** The audio producer *)

Lemma deliver_spec (blocks : list block) :
  forall s,
    queue (deliver blocks s) = queue s ++ map blk_data blocks
    /\ stderr (deliver blocks s)
       = stderr s
         ++ map (fun b => ("Audio status: "
                           ++ flags_str (blk_status b))%string)
              (filter (fun b => flags_truthy (blk_status b)) blocks).
Proof.
  induction blocks as [|b rest IH]; intros s.
  - cbn. now rewrite !app_nil_r.
  - cbn [deliver]. destruct (IH (audio_callback (blk_data b) (blk_frames b)
                                   (blk_time b) (blk_status b) s))
      as [Hq He].
    rewrite Hq, He. unfold audio_callback. cbn [map filter].
    destruct (flags_truthy (blk_status b)); cbn [queue stderr map];
      rewrite <- !app_assoc; split; reflexivity.
Qed.

(** X14: the callback never drops or reorders audio: after any series of blocks
    the queue holds what it held before followed by every block, in the
    order of capture, whether or not the driver reported a status; exactly
    the blocks with a status leave a line on [stderr]. *)
Theorem callback_queues_every_block :
  forall (blocks : list block) (s : audio_state),
    queue (deliver blocks s) = queue s ++ map blk_data blocks
    /\ stderr (deliver blocks s)
       = stderr s
         ++ map (fun b => ("Audio status: "
                           ++ flags_str (blk_status b))%string)
              (filter (fun b => flags_truthy (blk_status b)) blocks).
Proof.
  intros blocks s. apply deliver_spec.
Qed.

(** X15: from the microphone to the recognizer: when the plug fails only with
    exceptions of class [Exception] and the recognizer does not raise, the
    loop takes exactly the captured blocks, in the order of capture. *)
Theorem captured_blocks_reach_the_loop_in_order :
  forall (World : Type) (env : Env World),
    device_faults_are_Exceptions env ->
    recognizer_never_raises env ->
    forall (blocks : list block) (rec : nat) (w : World),
      queue_gets
        (trace_of (recognizer_loop env rec
                     (queue (deliver blocks (AudioState [] []))) w))
      = map blk_data blocks.
Proof.
  intros World env faults quiet blocks rec w.
  destruct (deliver_spec blocks (AudioState [] [])) as [Hq _].
  cbn [queue app] in Hq. rewrite Hq.
  pose proof (recognizer_loop_keeps_going env faults quiet rec
                (map blk_data blocks) w) as Hgo.
  pose proof (recognizer_loop_run env rec (map blk_data blocks) w) as H.
  cbv zeta in H. destruct H as (_ & (rest & Hrest & Hend) & _).
  rewrite (Hend Hgo), app_nil_r in Hrest. now symmetry.
Qed.

Lemma captured_blocks_reach_the_loop_in_order_witness :
  let overflow := CallbackFlags true "input overflow" in
  let quiet := CallbackFlags false "" in
  let blocks := [Block [Byte.x01] 8000 0 quiet;
                 Block [Byte.x02] 8000 1 overflow] in
  queue_gets
    (trace_of (recognizer_loop Mock.offline 0
                 (queue (deliver blocks (AudioState [] [])))
                 (Mock.start ["turn on"])))
  = [[Byte.x01]; [Byte.x02]].
Proof.
  exact (captured_blocks_reach_the_loop_in_order Mock.world Mock.offline
           offline_faults_are_Exceptions
           (mock_recognizer_never_raises (Some Mock.network_down))
           [Block [Byte.x01] 8000 0 (CallbackFlags false "");
            Block [Byte.x02] 8000 1 (CallbackFlags true "input overflow")]
           0 (Mock.start ["turn on"])).
Defined.
